(** * Basketball Tagger (version 3): event log and per-play metrics

    A shallow embedding of [BasketballTaggerVersion3.py]: the session state
    kept in [st.session_state], the three handlers that mutate it
    ([add_play], [add_log], the "Reset Game" button) and the pure function
    [compute_metrics] that derives the per-play table from the log.

    Modelling conventions.
    - Python [str] values are [string]s holding the UTF-8 bytes of the
      text; [str.strip] is given on them in full, [str.lower] is an
      argument of the handler that calls it.
    - Python [int] and the [int64] columns of the data frame are [Z]; a log
      would need more than [2^61] events before an [int64] sum of points
      could wrap, so no wrap-around is written.
    - Python [float] and the [float64] columns are the kernel's binary64
      numbers ([PrimFloat.float]); [/] on them is IEEE division.
    - [st.session_state] is a record threaded through the handlers, together
      with the list of messages the handlers render. *)

From Stdlib Require Import List ZArith Lia Bool Ascii String.
From Stdlib Require Import Permutation Sorted QArith Qabs Qpower.
From Stdlib Require Import Uint63 Floats.
From Stdlib Require OrderedTypeEx.
Import ListNotations.

Local Open Scope string_scope.
Local Open Scope list_scope.
Local Open Scope Z_scope.

(** ** Strings: the [str] methods the handlers use

    A Python [str] is held as its UTF-8 encoding, one [ascii] per byte.
    [str.strip()] removes the characters [str.isspace] accepts: ten of one
    byte, two of two bytes (U+0085, U+00A0) and seventeen of three bytes
    (U+1680, U+2000 to U+200A, U+2028, U+2029, U+202F, U+205F, U+3000).
    No byte of a longer character is one of these, so the bytes can be
    searched as they are. [str.lower()] needs the Unicode case tables,
    which are no part of this program: the handler that calls it takes it
    as an argument. [s.replace(" ", "_")] and the [re.sub] of
    [safe_filename] act on ASCII characters, which are single bytes below
    128 that occur in no longer character; the bytes of any other character
    are outside the class [A-Za-z0-9_\-\.] and are dropped with it. *)

Module PyStr.

(** [str.isspace] on a character of one byte: TAB, LF, VT, FF, CR, the four
    separators 0x1c..0x1f and the space. *)
Definition isspace (c : ascii) : bool :=
  let n := nat_of_ascii c in
  ((9 <=? n)%nat && (n <=? 13)%nat) || ((28 <=? n)%nat && (n <=? 32)%nat).

(** U+0085 is C2 85 and U+00A0 is C2 A0. *)
Definition isspace2 (c1 c2 : ascii) : bool :=
  let n1 := nat_of_ascii c1 in
  let n2 := nat_of_ascii c2 in
  (n1 =? 194)%nat && ((n2 =? 133)%nat || (n2 =? 160)%nat).

(** U+1680 is E1 9A 80; U+2000..U+200A, U+2028, U+2029 and U+202F are
    E2 80 followed by 80..8A, A8, A9 and AF; U+205F is E2 81 9F; U+3000 is
    E3 80 80. *)
Definition isspace3 (c1 c2 c3 : ascii) : bool :=
  let n1 := nat_of_ascii c1 in
  let n2 := nat_of_ascii c2 in
  let n3 := nat_of_ascii c3 in
  ((n1 =? 225)%nat && ((n2 =? 154)%nat && (n3 =? 128)%nat))
  || ((n1 =? 226)%nat
      && (((n2 =? 128)%nat
           && (((128 <=? n3)%nat && (n3 <=? 138)%nat)
               || (n3 =? 168)%nat || (n3 =? 169)%nat || (n3 =? 175)%nat))
          || ((n2 =? 129)%nat && (n3 =? 159)%nat)))
  || ((n1 =? 227)%nat && ((n2 =? 128)%nat && (n3 =? 128)%nat)).

(** Whitespace characters are dropped from the front of the bytes for as
    long as there is one; [w1], [w2] and [w3] recognise a whitespace
    character of one, two and three bytes there. *)
Fixpoint drop_space (w1 : ascii -> bool) (w2 : ascii -> ascii -> bool)
    (w3 : ascii -> ascii -> ascii -> bool) (l : list ascii) : list ascii :=
  match l with
  | [] => []
  | c1 :: l1 =>
      if w1 c1 then drop_space w1 w2 w3 l1
      else
        match l1 with
        | [] => l
        | c2 :: l2 =>
            if w2 c1 c2 then drop_space w1 w2 w3 l2
            else
              match l2 with
              | [] => l
              | c3 :: l3 =>
                  if w3 c1 c2 c3 then drop_space w1 w2 w3 l3 else l
              end
        end
  end.

Definition lstrip_bytes (l : list ascii) : list ascii :=
  drop_space isspace isspace2 isspace3 l.

(** From the back the bytes of a character come in reverse. *)
Definition rstrip_bytes (l : list ascii) : list ascii :=
  rev (drop_space isspace (fun c1 c2 => isspace2 c2 c1)
                  (fun c1 c2 c3 => isspace3 c3 c2 c1) (rev l)).

(** [s.strip()]: whitespace goes from both ends. *)
Definition strip (s : string) : string :=
  string_of_list_ascii (rstrip_bytes (lstrip_bytes (list_ascii_of_string s))).

Definition lower_char (c : ascii) : ascii :=
  let n := nat_of_ascii c in
  if ((65 <=? n)%nat && (n <=? 90)%nat)%bool then ascii_of_nat (n + 32) else c.

(** What [str.lower] does to text that is ASCII throughout. It stands in
    for [str.lower] where an example needs a function to run; no theorem
    below is about it. *)
Fixpoint lower_ascii (s : string) : string :=
  match s with
  | EmptyString => EmptyString
  | String c s' => String (lower_char c) (lower_ascii s')
  end.

(** Truthiness of a [str]: non-empty. *)
Definition truthy (s : string) : bool :=
  match s with EmptyString => false | _ => true end.

End PyStr.

(** ** Dates: [str(date)] is the ISO form YYYY-MM-DD *)

Record date := mkDate { year : nat; month : nat; day : nat }.

Definition digit (n : nat) : ascii := ascii_of_nat (48 + n mod 10).

Definition pad2 (n : nat) : string :=
  String (digit (n / 10)) (String (digit n) EmptyString).

Definition pad4 (n : nat) : string :=
  String (digit (n / 1000)) (String (digit (n / 100)) (pad2 n)).

Definition date_str (d : date) : string :=
  (pad4 (year d) ++ "-" ++ pad2 (month d) ++ "-" ++ pad2 (day d))%string.

(** ** Events and the session state *)

(** One dictionary appended by [add_log]. *)
Record event := mkEvent {
  timestamp : string;
  ev_opponent : string;
  ev_game_date : string;
  ev_quarter : string;
  play : string;
  result : string;
  points : Z
}.

(** The keys [init_state] puts in [st.session_state]. *)
Record session_state := mkSession {
  plays : list string;
  log : list event;
  selected_play : option string;
  opponent : string;
  game_date : date;
  quarter : string;
  new_play : string
}.

(** What a handler renders through streamlit. *)
Inductive ui_event :=
| SidebarWarning (msg : string)
| Success (msg : string).

(** The state a handler runs in: the session and what was rendered so far. *)
Record app := mkApp {
  session : session_state;
  rendered : list ui_event
}.

Definition init_state (today : date) : session_state :=
  mkSession [] [] None "" today "" "".

(** ** [points_from_result] *)

Definition result_points : list (string * Z) :=
  [("Made 2", 2); ("Made 3", 3); ("Missed 2", 0); ("Missed 3", 0); ("Foul", 0)].

(** [dict.get(key, default)] on a dictionary literal without repeated keys. *)
Fixpoint dict_get {V : Type} (d : list (string * V)) (k : string) (default : V) : V :=
  match d with
  | [] => default
  | (k', v) :: d' => if String.eqb k' k then v else dict_get d' k default
  end.

Definition points_from_result (r : string) : Z := dict_get result_points r 0.

(** ** The handlers *)

(** [add_log(play, result)]; [now] is the text
    [datetime.now().strftime(...)] returns at the call. *)
Definition add_log (now : string) (p r : string) (a : app) : app :=
  let s := session a in
  let e := mkEvent now (opponent s) (date_str (game_date s)) (quarter s)
                   p r (points_from_result r) in
  mkApp (mkSession (plays s) (log s ++ [e]) (selected_play s) (opponent s)
                   (game_date s) (quarter s) (new_play s))
        (rendered a).

(** [add_play()], which reads the name from [session_state["new_play"]];
    [lower] is [str.lower]. *)
Definition add_play (lower : string -> string) (a : app) : app :=
  let s := session a in
  let raw := PyStr.strip (new_play s) in
  if negb (PyStr.truthy raw) then a
  else
    let existing_lower := map lower (plays s) in
    if existsb (String.eqb (lower raw)) existing_lower then
      mkApp s (rendered a ++ [SidebarWarning "Play already exists."])
    else
      mkApp (mkSession (plays s ++ [raw]) (log s) (selected_play s) (opponent s)
                       (game_date s) (quarter s) "")
            (rendered a).

(** The body of the "Reset Game" button. *)
Definition reset_game (a : app) : app :=
  let s := session a in
  mkApp (mkSession (plays s) [] None (opponent s) (game_date s) (quarter s)
                   (new_play s))
        (rendered a ++ [Success "Game state cleared."]).

(** ** A stable sort

    Both [groupby(...)] (which orders the group keys) and [sort_values]
    (a stable lexicographic sort when several keys are given) are insertion
    sorts here: [x] is put in front of the first element it does not have to
    follow, so rows that tie keep the order they came in. *)

Section StableSort.
Context {A : Type}.
Variable le : A -> A -> bool.

Fixpoint insert_sorted (x : A) (l : list A) : list A :=
  match l with
  | [] => [x]
  | y :: l' => if le x y then x :: l else y :: insert_sorted x l'
  end.

Fixpoint stable_sort (l : list A) : list A :=
  match l with
  | [] => []
  | x :: l' => insert_sorted x (stable_sort l')
  end.
End StableSort.

(** ** Numbers *)

(** [int64] to [float64], as numpy converts the operands of a true division
    (and as Python's [int / int] does for operands below [2^53]): exact
    below [2^53], rounded to nearest even above. [Uint63.of_Z] reduces its
    argument modulo [2^63], which no count or sum over a log comes near. *)
Definition float_of_int (z : Z) : float :=
  if z <? 0 then PrimFloat.opp (PrimFloat.of_uint63 (Uint63.of_Z (- z)))
  else PrimFloat.of_uint63 (Uint63.of_Z z).

Definition Zsum (l : list Z) : Z := fold_right Z.add 0 l.

(** ** The data frames of [compute_metrics] *)

(** The log as a data frame: one row per event, in log order. *)
Definition DataFrame := list event.

(** A [Series] indexed by play name. *)
Definition Series := list (string * Z).

(** A row of the metrics frame. A cell of a column that has not been
    assigned yet holds [nan]; no such cell is ever read. *)
Record metrics_row := mkRow {
  Play : string;
  Attempts : Z;
  Points : Z;
  PPP : float;
  Frequency : float;
  Success_Rate : float
}.

Record metrics_frame := mkFrame {
  columns : list string;
  rows : list metrics_row
}.

Definition set_PPP (r : metrics_row) (x : float) : metrics_row :=
  mkRow (Play r) (Attempts r) (Points r) x (Frequency r) (Success_Rate r).
Definition set_Frequency (r : metrics_row) (x : float) : metrics_row :=
  mkRow (Play r) (Attempts r) (Points r) (PPP r) x (Success_Rate r).
Definition set_Success_Rate (r : metrics_row) (x : float) : metrics_row :=
  mkRow (Play r) (Attempts r) (Points r) (PPP r) (Frequency r) x.

(** [df.empty] *)
Definition empty (df : DataFrame) : bool :=
  match df with [] => true | _ => false end.

(** [df.groupby("play")]: the distinct play names in ascending order, each
    with its rows in log order. *)
Definition group_keys (df : DataFrame) : list string :=
  stable_sort String.leb (nodup string_dec (map play df)).

Definition groupby_play (df : DataFrame) : list (string * DataFrame) :=
  map (fun k => (k, filter (fun e => String.eqb (play e) k) df)) (group_keys df).

(** [.size()] and [["points"].sum()] of a grouped frame. *)
Definition size (g : list (string * DataFrame)) : Series :=
  map (fun kg => (fst kg, Z.of_nat (List.length (snd kg)))) g.

Definition sum_points (g : list (string * DataFrame)) : Series :=
  map (fun kg => (fst kg, Zsum (map points (snd kg)))) g.

(** [pd.concat([attempts, points], axis=1).reset_index().rename(...)]:
    the two series are aligned on their index, which here is the same list
    of group keys, so the lookup in [points] always finds its key. *)
Definition concat_axis1 (attempts points : Series) : metrics_frame :=
  mkFrame ["Play"; "Attempts"; "Points"]
    (map (fun ka => mkRow (fst ka) (snd ka) (dict_get points (fst ka) 0)
                          PrimFloat.nan PrimFloat.nan PrimFloat.nan)
         attempts).

(** [metrics[col] = ...] with a value computed row by row. *)
Definition assign (col : string) (set : metrics_row -> float -> metrics_row)
    (f : metrics_row -> float) (m : metrics_frame) : metrics_frame :=
  mkFrame (columns m ++ [col]) (map (fun r => set r (f r)) (rows m)).

(** [series.isin(values)] on one cell, and [df[mask]]. *)
Definition isin (x : string) (values : list string) : bool :=
  existsb (String.eqb x) values.

Definition boolean_index (df : DataFrame) (mask : list bool) : DataFrame :=
  map fst (filter snd (combine df mask)).

(** The order of [sort_values(by=["PPP", "Attempts"], ascending=[False,
    False])]: larger PPP first, NaN last, ties on PPP by larger Attempts. *)
Definition ppp_before (x y : float) : bool :=
  if PrimFloat.is_nan x then false
  else if PrimFloat.is_nan y then true
  else PrimFloat.ltb y x.

Definition ppp_tie (x y : float) : bool :=
  (PrimFloat.is_nan x && PrimFloat.is_nan y) || PrimFloat.eqb x y.

Definition row_le (a b : metrics_row) : bool :=
  ppp_before (PPP a) (PPP b)
  || (ppp_tie (PPP a) (PPP b) && (Attempts b <=? Attempts a)).

Definition sort_values (m : metrics_frame) : metrics_frame :=
  mkFrame (columns m) (stable_sort row_le (rows m)).

(** ** The objects [compute_metrics] works on

    The function receives a reference to the caller's frame and builds one
    frame of its own, [metrics], which it then updates in place
    ([metrics["PPP"] = ...]). The store below holds both kinds of frame; an
    object's identity is its position, and a new object goes at the end. *)

Inductive object :=
| LogFrame (df : DataFrame)
| MetricsFrame (m : metrics_frame).

Definition heap := list object.
Definition ref := nat.

Definition M (A : Type) : Type := heap -> A * heap.

Definition ret {A : Type} (x : A) : M A := fun h => (x, h).

Definition bind {A B : Type} (c : M A) (k : A -> M B) : M B :=
  fun h => let (x, h') := c h in k x h'.

Notation "x <- c ;; k" := (bind c (fun x => k))
  (at level 61, c at next level, right associativity).
Notation "c ;;; k" := (bind c (fun _ => k))
  (at level 61, right associativity).

Fixpoint update_nth {A : Type} (n : nat) (x : A) (l : list A) : list A :=
  match l, n with
  | [], _ => []
  | _ :: l', O => x :: l'
  | y :: l', S n' => y :: update_nth n' x l'
  end.

Definition new_object (o : object) : M ref :=
  fun h => (List.length h, h ++ [o]).

Definition get_log (r : ref) : M DataFrame :=
  fun h => (match nth_error h r with Some (LogFrame df) => df | _ => [] end, h).

Definition get_metrics (r : ref) : M metrics_frame :=
  fun h => (match nth_error h r with
            | Some (MetricsFrame m) => m
            | _ => mkFrame [] []
            end, h).

(** [frame[col] = f(frame)], in place. *)
Definition setitem (r : ref) (col : string)
    (set : metrics_row -> float -> metrics_row) (f : metrics_row -> float)
    : M unit :=
  fun h => match nth_error h r with
           | Some (MetricsFrame m) =>
               (tt, update_nth r (MetricsFrame (assign col set f m)) h)
           | _ => (tt, h)
           end.

(** ** [compute_metrics] *)

Definition metrics_columns : list string :=
  ["Play"; "Attempts"; "Points"; "PPP"; "Frequency"; "Success Rate"].

Definition made_results : list string := ["Made 2"; "Made 3"].
Definition shot_results : list string :=
  ["Made 2"; "Made 3"; "Missed 2"; "Missed 3"].

Definition success_rate (made_counts shot_attempts : Series)
    (play_name : string) : float :=
  let made := dict_get made_counts play_name 0 in
  let atts := dict_get shot_attempts play_name 0 in
  if atts =? 0 then PrimFloat.zero
  else PrimFloat.div (float_of_int made) (float_of_int atts).

(** The call [compute_metrics(log_df)] on the store; it returns the
    reference of the frame it hands back. *)
Definition compute_metrics_call (log_df : ref) : M ref :=
  df <- get_log log_df ;;
  if empty df then new_object (MetricsFrame (mkFrame metrics_columns []))
  else
    let attempts := size (groupby_play df) in
    let points := sum_points (groupby_play df) in
    metrics <- new_object (MetricsFrame (concat_axis1 attempts points)) ;;
    setitem metrics "PPP" set_PPP
      (fun r => PrimFloat.div (float_of_int (Points r))
                              (float_of_int (Attempts r))) ;;;
    m <- get_metrics metrics ;;
    let total_attempts := Zsum (map Attempts (rows m)) in
    setitem metrics "Frequency" set_Frequency
      (fun r => PrimFloat.div (float_of_int (Attempts r))
                  (float_of_int (if total_attempts =? 0 then 1
                                 else total_attempts))) ;;;
    let made_mask := map (fun e => isin (result e) made_results) df in
    let att_mask := map (fun e => isin (result e) shot_results) df in
    let made_counts := size (groupby_play (boolean_index df made_mask)) in
    let shot_attempts := size (groupby_play (boolean_index df att_mask)) in
    setitem metrics "Success Rate" set_Success_Rate
      (fun r => success_rate made_counts shot_attempts (Play r)) ;;;
    m <- get_metrics metrics ;;
    new_object (MetricsFrame (sort_values m)).

(** The table [compute_metrics] returns for a log: the call run on a store
    that holds the log's frame and nothing else. *)
Definition compute_metrics (log_df : DataFrame) : metrics_frame :=
  let (r, h) := compute_metrics_call 0%nat [LogFrame log_df] in
  fst (get_metrics r h).

(** ** What the claims count

    The quantities of a play [p] in a log, stated directly on the events. *)

Definition events_of (df : DataFrame) (p : string) : DataFrame :=
  filter (fun e => String.eqb (play e) p) df.

Definition attempts_of (df : DataFrame) (p : string) : Z :=
  Z.of_nat (List.length (events_of df p)).

Definition points_of (df : DataFrame) (p : string) : Z :=
  Zsum (map points (events_of df p)).

Definition made_of (df : DataFrame) (p : string) : Z :=
  Z.of_nat (List.length
    (filter (fun e => isin (result e) made_results) (events_of df p))).

Definition shots_of (df : DataFrame) (p : string) : Z :=
  Z.of_nat (List.length
    (filter (fun e => isin (result e) shot_results) (events_of df p))).

(** An event as [add_log] builds it, for the examples below. *)
Definition tagged (p r : string) : event :=
  mkEvent "2024-01-01 10:00:00" "Opp" "2024-01-01" "1" p r (points_from_result r).

(** ** The rows the function builds *)

(** The row the function builds for the group key [k]. *)
Definition metrics_of (df : DataFrame) (k : string) : metrics_row :=
  let total := Z.of_nat (List.length df) in
  mkRow k (attempts_of df k) (points_of df k)
    (PrimFloat.div (float_of_int (points_of df k)) (float_of_int (attempts_of df k)))
    (PrimFloat.div (float_of_int (attempts_of df k))
                   (float_of_int (if total =? 0 then 1 else total)))
    (if shots_of df k =? 0 then PrimFloat.zero
     else PrimFloat.div (float_of_int (made_of df k)) (float_of_int (shots_of df k))).

(** The frame [metrics] once its three columns are assigned, before
    [sort_values]. *)
Definition unsorted_metrics (df : DataFrame) : metrics_frame :=
  mkFrame metrics_columns (map (metrics_of df) (group_keys df)).

(** ** What [compute_metrics] reads *)

(** The three cells of an event the function looks at. *)
Definition read_columns (e : event) : string * string * Z :=
  (play e, result e, points e).

Definition same_read (e1 e2 : event) : Prop := read_columns e1 = read_columns e2.

(** ** Frequencies *)

Definition Qsum (l : list Q) : Q := fold_right Qplus 0%Q l.

(** The float64 sum of a column, cell after cell from the top. *)
Definition fsum (l : list float) : float :=
  fold_left PrimFloat.add l PrimFloat.zero.

(** The rational a finite binary64 number denotes (0 for the others). *)
Definition float_to_Q (x : float) : Q :=
  match Prim2SF x with
  | S754_finite s m e =>
      ((if s then (-1) else 1) * (Zpos m # 1) * Qpower 2 e)%Q
  | _ => 0%Q
  end.

(** ** The order of binary64 numbers

    [sort_values] compares PPP cells. A binary64 number is ranked by four
    integers so that a larger number has a smaller rank and NaN comes after
    every number; the comparisons of [PrimFloat] are then comparisons of
    ranks. *)

Definition rk1 (x : spec_float) : Z :=
  match x with S754_nan => 1 | _ => 0 end.

Definition rk2 (x : spec_float) : Z :=
  match x with
  | S754_infinity s => if s then 2 else -2
  | S754_finite s _ _ => if s then 1 else -1
  | _ => 0
  end.

Definition rk3 (x : spec_float) : Z :=
  match x with
  | S754_finite s _ e => if s then e else - e
  | _ => 0
  end.

Definition rk4 (x : spec_float) : Z :=
  match x with
  | S754_finite s m _ => if s then Zpos m else Zneg m
  | _ => 0
  end.

Definition rank_lt (x y : spec_float) : Prop :=
  rk1 x < rk1 y
  \/ (rk1 x = rk1 y
      /\ (rk2 x < rk2 y
          \/ (rk2 x = rk2 y
              /\ (rk3 x < rk3 y \/ (rk3 x = rk3 y /\ rk4 x < rk4 y))))).

Definition rank_eq (x y : spec_float) : Prop :=
  rk1 x = rk1 y /\ rk2 x = rk2 y /\ rk3 x = rk3 y /\ rk4 x = rk4 y.

(** ** States and logs of the examples *)

(** U+00A0, the no-break space, and U+3000, the ideographic space. *)
Definition nbsp : string :=
  String (ascii_of_nat 194) (String (ascii_of_nat 160) "").

Definition ideographic_space : string :=
  String (ascii_of_nat 227) (String (ascii_of_nat 128) (String (ascii_of_nat 128) "")).

(** The state after "Horns" was added and the user typed one no-break
    space in the input field. *)
Definition nbsp_input : app :=
  mkApp (mkSession ["Horns"] [] None "" (mkDate 2024 1 1) "" nbsp) [].

(** "École" and "école": U+00C9 is C3 89 and U+00E9 is C3 A9. *)
Definition Ecole : string :=
  String (ascii_of_nat 195) (String (ascii_of_nat 137) "cole").

Definition ecole : string :=
  String (ascii_of_nat 195) (String (ascii_of_nat 169) "cole").

(** The state after "école" was added and the user typed "École". *)
Definition Ecole_input : app :=
  mkApp (mkSession [ecole] [] None "" (mkDate 2024 1 1) "" Ecole) [].

(** The state after "Horns" was added and the user left three blanks in the
    input field. *)
Definition blank_input : app :=
  mkApp (mkSession ["Horns"] [] None "" (mkDate 2024 1 1) "" "   ") [].

(** Two tags of Horns (one of them a foul) and one of Flex. *)
Definition horns_flex : DataFrame :=
  [tagged "Horns" "Made 2"; tagged "Horns" "Foul"; tagged "Flex" "Made 3"].

(** B and C tie on PPP (3 points per attempt); C has more attempts. *)
Definition tie_on_ppp : DataFrame :=
  [tagged "A" "Made 2"; tagged "B" "Made 3"; tagged "C" "Made 3";
   tagged "C" "Made 3"].

(** Six plays tagged once each. *)
Definition six_plays : DataFrame :=
  map (fun p => tagged p "Made 2") ["A"; "B"; "C"; "D"; "E"; "F"].

(** ** [safe_filename] *)

Module PyStrMore.

(** [s.replace(" ", "_")]: every space becomes an underscore. *)
Fixpoint replace_spaces (s : string) : string :=
  match s with
  | EmptyString => EmptyString
  | String c s' =>
      String (if Ascii.eqb c " " then "_"%char else c) (replace_spaces s')
  end.

(** The characters the class [A-Za-z0-9_\-\.] accepts. *)
Definition filename_char (c : ascii) : bool :=
  let n := nat_of_ascii c in
  ((65 <=? n)%nat && (n <=? 90)%nat)
  || ((97 <=? n)%nat && (n <=? 122)%nat)
  || ((48 <=? n)%nat && (n <=? 57)%nat)
  || (n =? 95)%nat || (n =? 45)%nat || (n =? 46)%nat.

(** [re.sub(r"[^...]", "", s)] with a one-character pattern: the characters
    outside the class are dropped. *)
Fixpoint keep_chars (keep : ascii -> bool) (s : string) : string :=
  match s with
  | EmptyString => EmptyString
  | String c s' =>
      if keep c then String c (keep_chars keep s') else keep_chars keep s'
  end.

Fixpoint all_chars (ok : ascii -> bool) (s : string) : bool :=
  match s with
  | EmptyString => true
  | String c s' => ok c && all_chars ok s'
  end.

End PyStrMore.

Definition safe_filename (s : string) : string :=
  let s := PyStrMore.replace_spaces (PyStr.strip s) in
  PyStrMore.keep_chars PyStrMore.filename_char s.

(** ** [init_state] on a session that already holds keys

    [st.session_state] outlives a run of the script; [setdefault] fills a
    key only when it is missing. A session is here the seven keys, each
    present or not. *)

Record session_keys := mkKeys {
  k_plays : option (list string);
  k_log : option (list event);
  k_selected_play : option (option string);
  k_opponent : option string;
  k_game_date : option date;
  k_quarter : option string;
  k_new_play : option string
}.

Definition setdefault {A : Type} (present : option A) (default : A) : option A :=
  match present with
  | Some v => Some v
  | None => Some default
  end.

(** [init_state()] run on the day [today]. *)
Definition init_state_keys (today : date) (k : session_keys) : session_keys :=
  mkKeys (setdefault (k_plays k) [])
         (setdefault (k_log k) [])
         (setdefault (k_selected_play k) None)
         (setdefault (k_opponent k) "")
         (setdefault (k_game_date k) today)
         (setdefault (k_quarter k) "")
         (setdefault (k_new_play k) "").

Definition no_keys : session_keys := mkKeys None None None None None None None.

Definition keys_of (s : session_state) : session_keys :=
  mkKeys (Some (plays s)) (Some (log s)) (Some (selected_play s))
         (Some (opponent s)) (Some (game_date s)) (Some (quarter s))
         (Some (new_play s)).

(** ** The game setup of the sidebar *)

Definition quarter_options : list string := [""; "1"; "2"; "3"; "4"; "OT"].

(** [list.index(x)], which raises when [x] is not in the list. *)
Fixpoint list_index (x : string) (l : list string) : option nat :=
  match l with
  | [] => None
  | y :: l' =>
      if String.eqb y x then Some 0%nat
      else option_map S (list_index x l')
  end.

(** The [index=] argument of the quarter selectbox:
    [options.index(quarter) if quarter in options else 0]. *)
Definition quarter_index (q : string) : nat :=
  if isin q quarter_options then
    match list_index q quarter_options with Some i => i | None => 0%nat end
  else 0%nat.

(** [bool(opponent and game_date and quarter)]; a [date] is always true. *)
Definition ready_to_tag (s : session_state) : bool :=
  PyStr.truthy (opponent s) && true && PyStr.truthy (quarter s).

(** ** Runs of the page

    What can happen to the state between two renderings: a sidebar widget
    stores its value, a button runs its handler, a tag is logged. *)

Inductive action :=
| SetOpponent (text : string)
| SetGameDate (d : date)
| SelectQuarter (choice : nat)
| TypeNewPlay (text : string)
| ClickAddPlay
| ClickReset
| Tag (now play_name result_name : string).

Definition set_opponent (text : string) (a : app) : app :=
  let s := session a in
  mkApp (mkSession (plays s) (log s) (selected_play s) text (game_date s)
                   (quarter s) (new_play s)) (rendered a).

Definition set_game_date (d : date) (a : app) : app :=
  let s := session a in
  mkApp (mkSession (plays s) (log s) (selected_play s) (opponent s) d
                   (quarter s) (new_play s)) (rendered a).

Definition set_quarter (q : string) (a : app) : app :=
  let s := session a in
  mkApp (mkSession (plays s) (log s) (selected_play s) (opponent s)
                   (game_date s) q (new_play s)) (rendered a).

Definition set_new_play (text : string) (a : app) : app :=
  let s := session a in
  mkApp (mkSession (plays s) (log s) (selected_play s) (opponent s)
                   (game_date s) (quarter s) text) (rendered a).

Definition step (lower : string -> string) (act : action) (a : app) : app :=
  match act with
  | SetOpponent text => set_opponent text a
  | SetGameDate d => set_game_date d a
  | SelectQuarter choice => set_quarter (nth choice quarter_options "") a
  | TypeNewPlay text => set_new_play text a
  | ClickAddPlay => add_play lower a
  | ClickReset => reset_game a
  | Tag now p r => add_log now p r a
  end.

Definition run (lower : string -> string) (acts : list action) (a : app) : app :=
  fold_left (fun a act => step lower act a) acts a.

Definition initial_app (today : date) : app := mkApp (init_state today) [].

(** The tags of a run, oldest first: time, play and result of each. *)
Definition tags_of (acts : list action) : list (string * string * string) :=
  flat_map (fun act => match act with
                       | Tag now p r => [(now, p, r)]
                       | _ => []
                       end) acts.

Definition is_reset (act : action) : bool :=
  match act with ClickReset => true | _ => false end.

Definition tag_of_event (e : event) : string * string * string :=
  (timestamp e, play e, result e).

(** The actions of the three game setup widgets. *)
Definition is_setup (act : action) : bool :=
  match act with
  | SetOpponent _ | SetGameDate _ | SelectQuarter _ => true
  | _ => false
  end.

(** The registry as [add_play] keeps it: no name is empty or carries
    whitespace at its ends, and no two names are equal up to case. *)
Definition registry_ok (lower : string -> string) (names : list string) : Prop :=
  NoDup (map lower names)
  /\ forall n, In n names -> n <> "" /\ PyStr.strip n = n.

(** An event whose points are those of its result. *)
Definition points_consistent (e : event) : Prop :=
  points e = points_from_result (result e).

(** * Proofs *)

(** ** The stable sort *)

Section StableSortFacts.
Context {A : Type}.
Variable le : A -> A -> bool.

Lemma insert_sorted_perm (x : A) (l : list A) :
  Permutation (x :: l) (insert_sorted le x l).
Proof.
  induction l as [|y l IH]; simpl; [reflexivity|].
  destruct (le x y); [reflexivity|].
  rewrite perm_swap. now constructor.
Qed.

Lemma stable_sort_perm (l : list A) : Permutation l (stable_sort le l).
Proof.
  induction l as [|x l IH]; simpl; [constructor|].
  rewrite <- insert_sorted_perm. now constructor.
Qed.

Hypothesis le_total : forall a b, le a b = false -> le b a = true.
Hypothesis le_trans : forall a b c, le a b = true -> le b c = true -> le a c = true.

Let leP (a b : A) : Prop := le a b = true.

Lemma insert_sorted_sorted (x : A) (l : list A) :
  StronglySorted leP l -> StronglySorted leP (insert_sorted le x l).
Proof.
  induction 1 as [|y l Hs IH Hall]; simpl.
  - repeat constructor.
  - destruct (le x y) eqn:E.
    + constructor; [now constructor|].
      constructor; [exact E|].
      eapply Forall_impl; [|exact Hall].
      intros z Hz. eapply le_trans; eassumption.
    + constructor; [exact IH|].
      apply (Permutation_Forall (insert_sorted_perm x l)).
      constructor; [now apply le_total | exact Hall].
Qed.

Lemma stable_sort_sorted (l : list A) : StronglySorted leP (stable_sort le l).
Proof.
  induction l as [|x l IH]; simpl; [constructor|].
  now apply insert_sorted_sorted.
Qed.
End StableSortFacts.

(** A strongly sorted list relates any two of its positions. *)
Lemma StronglySorted_nth {A : Type} (R : A -> A -> Prop) (l : list A) :
  StronglySorted R l ->
  forall i j a b, (i < j)%nat -> nth_error l i = Some a -> nth_error l j = Some b ->
  R a b.
Proof.
  induction 1 as [|x l Hs IH Hall]; intros i j a b Hij Hi Hj.
  - destruct i; discriminate.
  - destruct j as [|j]; [lia|]. simpl in Hj.
    destruct i as [|i]; simpl in Hi.
    + injection Hi as <-. rewrite Forall_forall in Hall.
      apply Hall. eapply nth_error_In; eassumption.
    + apply (IH i j); auto. lia.
Qed.

(** ** Grouping *)

Lemma group_keys_In (df : DataFrame) (k : string) :
  In k (group_keys df) <-> In k (map play df).
Proof.
  unfold group_keys. rewrite <- (nodup_In string_dec (map play df)).
  split; intro H.
  - eapply Permutation_in; [symmetry; apply stable_sort_perm | exact H].
  - eapply Permutation_in; [apply stable_sort_perm | exact H].
Qed.

Lemma group_keys_NoDup (df : DataFrame) : NoDup (group_keys df).
Proof.
  unfold group_keys.
  eapply Permutation_NoDup; [apply stable_sort_perm | apply NoDup_nodup].
Qed.

Lemma dict_get_tabulate_in {V : Type} (f : string -> V) (keys : list string)
    (k : string) (d : V) :
  In k keys -> dict_get (map (fun k' => (k', f k')) keys) k d = f k.
Proof.
  induction keys as [|k0 keys IH]; simpl; [tauto|].
  intros [->|H].
  - now rewrite String.eqb_refl.
  - destruct (String.eqb_spec k0 k) as [->|_]; auto.
Qed.

Lemma dict_get_tabulate_out {V : Type} (f : string -> V) (keys : list string)
    (k : string) (d : V) :
  ~ In k keys -> dict_get (map (fun k' => (k', f k')) keys) k d = d.
Proof.
  induction keys as [|k0 keys IH]; simpl; [reflexivity|].
  intros H. destruct (String.eqb_spec k0 k) as [->|_]; [tauto|].
  apply IH. tauto.
Qed.

Lemma size_groupby (df : DataFrame) :
  size (groupby_play df) = map (fun k => (k, attempts_of df k)) (group_keys df).
Proof. unfold size, groupby_play. now rewrite map_map. Qed.

Lemma sum_points_groupby (df : DataFrame) :
  sum_points (groupby_play df) = map (fun k => (k, points_of df k)) (group_keys df).
Proof. unfold sum_points, groupby_play. now rewrite map_map. Qed.

Lemma boolean_index_mask (f : event -> bool) (df : DataFrame) :
  boolean_index df (map f df) = filter f df.
Proof.
  unfold boolean_index. induction df as [|e df IH]; simpl; [reflexivity|].
  destruct (f e); simpl; now rewrite IH.
Qed.

Lemma events_of_filter (f : event -> bool) (df : DataFrame) (p : string) :
  events_of (filter f df) p = filter f (events_of df p).
Proof.
  unfold events_of. induction df as [|e df IH]; simpl; [reflexivity|].
  destruct (f e) eqn:Ef, (String.eqb (play e) p) eqn:Ep; simpl;
    rewrite ?Ef, ?Ep, IH; reflexivity.
Qed.

Lemma events_of_nil_iff (df : DataFrame) (p : string) :
  events_of df p = [] <-> ~ In p (map play df).
Proof.
  unfold events_of. induction df as [|e df IH]; simpl; [tauto|].
  destruct (String.eqb_spec (play e) p) as [->|Hne].
  - split; [discriminate | tauto].
  - rewrite IH. tauto.
Qed.

(** The count a filtered frame's [size()] series holds for [p], with the
    default of [Series.get] when [p] is not a key of it. *)
Lemma filtered_counts_get (f : event -> bool) (df : DataFrame) (p : string) :
  dict_get (size (groupby_play (filter f df))) p 0
  = Z.of_nat (List.length (filter f (events_of df p))).
Proof.
  rewrite size_groupby.
  destruct (in_dec string_dec p (group_keys (filter f df))) as [Hin|Hout].
  - rewrite (dict_get_tabulate_in (attempts_of (filter f df))) by exact Hin.
    unfold attempts_of. now rewrite events_of_filter.
  - rewrite dict_get_tabulate_out by exact Hout.
    rewrite group_keys_In, <- events_of_nil_iff, events_of_filter in Hout.
    now rewrite Hout.
Qed.

(** Every event falls in exactly one group, so the group sizes add up to
    the length of the log. *)
Lemma indicator_sum (keys : list string) (p : string) :
  NoDup keys -> In p keys ->
  Zsum (map (fun k => if String.eqb p k then 1 else 0) keys) = 1.
Proof.
  induction 1 as [|k keys Hk Hnd IH]; simpl; [tauto|].
  intros [->|Hin].
  - rewrite String.eqb_refl.
    assert (Zsum (map (fun k => if String.eqb p k then 1 else 0) keys) = 0).
    { clear IH Hnd. induction keys as [|k' keys IH]; simpl; [reflexivity|].
      destruct (String.eqb_spec p k') as [->|_]; [simpl in Hk; tauto|].
      rewrite IH; [reflexivity | simpl in Hk; tauto]. }
    lia.
  - destruct (String.eqb_spec p k) as [->|_]; [tauto|].
    rewrite IH by exact Hin. reflexivity.
Qed.

Lemma group_sizes_sum (keys : list string) (df : DataFrame) :
  NoDup keys -> (forall e, In e df -> In (play e) keys) ->
  Zsum (map (attempts_of df) keys) = Z.of_nat (List.length df).
Proof.
  intros Hnd. induction df as [|e df IH]; intros Hcov.
  - clear. induction keys as [|k keys IH]; simpl; [reflexivity|].
    rewrite IH. reflexivity.
  - assert (Hstep : forall ks,
      Zsum (map (attempts_of (e :: df)) ks)
      = Zsum (map (fun k => if String.eqb (play e) k then 1 else 0) ks)
        + Zsum (map (attempts_of df) ks)).
    { induction ks as [|k ks IHks]; simpl; [reflexivity|].
      rewrite IHks. unfold attempts_of, events_of. simpl.
      destruct (String.eqb (play e) k); simpl List.length; lia. }
    rewrite Hstep, indicator_sum, IH; auto.
    + simpl List.length. lia.
    + intros e' He'. apply Hcov. now right.
    + apply Hcov. now left.
Qed.

Lemma total_attempts_length (df : DataFrame) :
  Zsum (map (attempts_of df) (group_keys df)) = Z.of_nat (List.length df).
Proof.
  apply group_sizes_sum; [apply group_keys_NoDup|].
  intros e He. apply group_keys_In. now apply in_map.
Qed.

(** ** The store *)

Lemma nth_error_new (h : heap) (o : object) :
  nth_error (h ++ [o]) (List.length h) = Some o.
Proof. rewrite nth_error_app2, Nat.sub_diag by lia. reflexivity. Qed.

Lemma nth_error_old (h l : heap) (i : nat) (o : object) :
  nth_error h i = Some o -> nth_error (h ++ l) i = Some o.
Proof.
  intros H. rewrite nth_error_app1; [exact H|].
  apply nth_error_Some. congruence.
Qed.

Lemma update_nth_new (h : heap) (o o' : object) :
  update_nth (List.length h) o' (h ++ [o]) = h ++ [o'].
Proof. induction h as [|x h IH]; simpl; [reflexivity | now rewrite IH]. Qed.

Lemma setitem_new (h : heap) (m : metrics_frame) (col : string)
    (set : metrics_row -> float -> metrics_row) (f : metrics_row -> float) :
  setitem (List.length h) col set f (h ++ [MetricsFrame m])
  = (tt, h ++ [MetricsFrame (assign col set f m)]).
Proof. unfold setitem. now rewrite nth_error_new, update_nth_new. Qed.

Lemma get_metrics_new (h : heap) (m : metrics_frame) :
  get_metrics (List.length h) (h ++ [MetricsFrame m])
  = (m, h ++ [MetricsFrame m]).
Proof. unfold get_metrics. now rewrite nth_error_new. Qed.

(** ** The rows of [compute_metrics] *)

Lemma assigned_metrics (df : DataFrame) :
  let m0 := concat_axis1 (size (groupby_play df)) (sum_points (groupby_play df)) in
  let m1 := assign "PPP" set_PPP
              (fun r => PrimFloat.div (float_of_int (Points r))
                                      (float_of_int (Attempts r))) m0 in
  let total := Zsum (map Attempts (rows m1)) in
  let m2 := assign "Frequency" set_Frequency
              (fun r => PrimFloat.div (float_of_int (Attempts r))
                          (float_of_int (if total =? 0 then 1 else total))) m1 in
  assign "Success Rate" set_Success_Rate
    (fun r => success_rate
       (size (groupby_play (boolean_index df
          (map (fun e => isin (result e) made_results) df))))
       (size (groupby_play (boolean_index df
          (map (fun e => isin (result e) shot_results) df))))
       (Play r)) m2
  = unsorted_metrics df.
Proof.
  cbv zeta. unfold unsorted_metrics, assign, concat_axis1. cbn [rows columns].
  f_equal.
  rewrite !boolean_index_mask, (size_groupby df), (sum_points_groupby df).
  unfold set_Success_Rate, set_Frequency, set_PPP.
  rewrite !map_map.
  cbn [fst snd Attempts Play Points PPP Frequency Success_Rate].
  change (fun x : string => attempts_of df x) with (attempts_of df).
  rewrite total_attempts_length.
  apply map_ext_in. intros k Hk.
  unfold metrics_of, success_rate.
  rewrite (dict_get_tabulate_in (points_of df)) by exact Hk.
  rewrite !filtered_counts_get.
  reflexivity.
Qed.

(** What the call does to a store in which [log_df] refers to the frame
    [df]: it appends its own frames and returns the last one. *)
Lemma compute_metrics_call_run (h : heap) (log_df : ref) (df : DataFrame) :
  nth_error h log_df = Some (LogFrame df) ->
  compute_metrics_call log_df h
  = if empty df
    then (List.length h, h ++ [MetricsFrame (mkFrame metrics_columns [])])
    else (S (List.length h),
          h ++ [MetricsFrame (unsorted_metrics df);
                MetricsFrame (sort_values (unsorted_metrics df))]).
Proof.
  intros Hlog. unfold compute_metrics_call, bind at 1, get_log. rewrite Hlog.
  destruct (empty df); [reflexivity|].
  unfold bind, new_object.
  rewrite setitem_new, get_metrics_new, setitem_new, setitem_new, get_metrics_new.
  rewrite assigned_metrics.
  rewrite length_app, <- app_assoc. simpl. f_equal. lia.
Qed.

Lemma compute_metrics_eq (df : DataFrame) :
  compute_metrics df
  = if empty df then mkFrame metrics_columns []
    else sort_values (unsorted_metrics df).
Proof.
  unfold compute_metrics.
  rewrite (compute_metrics_call_run [LogFrame df] 0%nat df) by reflexivity.
  destruct (empty df); reflexivity.
Qed.

Lemma compute_metrics_rows (df : DataFrame) :
  df <> [] ->
  rows (compute_metrics df)
  = stable_sort row_le (map (metrics_of df) (group_keys df)).
Proof.
  intros Hne. rewrite compute_metrics_eq.
  destruct df; [congruence | reflexivity].
Qed.

Lemma filter_permutation {A : Type} (f : A -> bool) (l l' : list A) :
  Permutation l l' -> Permutation (filter f l) (filter f l').
Proof.
  induction 1 as [|x l l' _ IH|x y l|l l' l'' _ IH1 _ IH2]; simpl.
  - constructor.
  - destruct (f x); [now constructor | exact IH].
  - destruct (f x), (f y); try reflexivity. apply perm_swap.
  - now transitivity (filter f l').
Qed.

Lemma Zsum_permutation (l l' : list Z) :
  Permutation l l' -> Zsum l = Zsum l'.
Proof. induction 1; simpl; lia. Qed.

Lemma rows_permutation (df : DataFrame) :
  df <> [] ->
  Permutation (map (metrics_of df) (group_keys df)) (rows (compute_metrics df)).
Proof. intros H. rewrite compute_metrics_rows by exact H. apply stable_sort_perm. Qed.

Lemma rows_of_empty : rows (compute_metrics []) = [].
Proof. reflexivity. Qed.

Lemma rows_In (df : DataFrame) (r : metrics_row) :
  In r (rows (compute_metrics df))
  <-> exists k, In k (map play df) /\ r = metrics_of df k.
Proof.
  destruct df as [|e df].
  - simpl. split; [tauto | intros (k & [] & _)].
  - set (d := e :: df). assert (Hne : d <> []) by discriminate.
    split.
    + intros H. apply (Permutation_in _ (Permutation_sym (rows_permutation d Hne))) in H.
      apply in_map_iff in H. destruct H as (k & <- & Hk).
      exists k. split; [now apply group_keys_In | reflexivity].
    + intros (k & Hk & ->).
      apply (Permutation_in _ (rows_permutation d Hne)).
      apply in_map. now apply group_keys_In.
Qed.

Lemma filter_play_tabulate (df : DataFrame) (keys : list string) (p : string) :
  NoDup keys -> In p keys ->
  filter (fun r => String.eqb (Play r) p) (map (metrics_of df) keys)
  = [metrics_of df p].
Proof.
  induction 1 as [|k keys Hk Hnd IH]; simpl; [tauto|].
  intros Hin. destruct (String.eqb_spec k p) as [->|Hne].
  - f_equal. clear IH Hin Hnd.
    induction keys as [|k' keys IH]; simpl; [reflexivity|].
    destruct (String.eqb_spec k' p) as [->|_]; [simpl in Hk; tauto|].
    apply IH. simpl in Hk. tauto.
  - destruct Hin as [->|Hin]; [congruence | now apply IH].
Qed.

(** The table has one row for a play that occurs in the log, and it is the
    row built for that play. *)
Lemma row_of_play (df : DataFrame) (p : string) :
  In p (map play df) ->
  filter (fun r => String.eqb (Play r) p) (rows (compute_metrics df))
  = [metrics_of df p].
Proof.
  intros Hp.
  assert (Hne : df <> []) by (destruct df; [contradiction | discriminate]).
  apply Permutation_length_1_inv.
  rewrite <- (filter_play_tabulate df (group_keys df) p).
  - apply filter_permutation, rows_permutation, Hne.
  - apply group_keys_NoDup.
  - now apply group_keys_In.
Qed.

Lemma attempts_of_pos (df : DataFrame) (p : string) :
  In p (map play df) -> 1 <= attempts_of df p.
Proof.
  intros Hp. unfold attempts_of.
  destruct (events_of df p) eqn:E.
  - apply events_of_nil_iff in E. contradiction.
  - simpl List.length. lia.
Qed.

(** ** Sums *)

Lemma Qsum_same_denominator (t : positive) (l : list Z) :
  (Qsum (map (fun a => a # t) l) == Zsum l # t)%Q.
Proof.
  induction l as [|a l IH]; simpl.
  - reflexivity.
  - rewrite IH. unfold Qeq, Qplus. simpl. rewrite Pos2Z.inj_mul. ring.
Qed.

(** ** Logs that agree on what is read *)

Lemma same_read_of_map (df1 df2 : DataFrame) :
  map read_columns df1 = map read_columns df2 -> Forall2 same_read df1 df2.
Proof.
  revert df2. induction df1 as [|e1 df1 IH]; intros [|e2 df2] H;
    try discriminate; constructor.
  - unfold same_read. simpl in H. congruence.
  - apply IH. simpl in H. congruence.
Qed.

Lemma Forall2_filter_same_read (f : event -> bool) (df1 df2 : DataFrame) :
  (forall e1 e2, same_read e1 e2 -> f e1 = f e2) ->
  Forall2 same_read df1 df2 ->
  Forall2 same_read (filter f df1) (filter f df2).
Proof.
  intros Hf. induction 1 as [|e1 e2 df1 df2 He _ IH]; simpl; [constructor|].
  rewrite (Hf e1 e2 He). destruct (f e2); [now constructor | exact IH].
Qed.

Lemma same_read_play (e1 e2 : event) : same_read e1 e2 -> play e1 = play e2.
Proof. unfold same_read, read_columns. congruence. Qed.

Lemma same_read_result (e1 e2 : event) : same_read e1 e2 -> result e1 = result e2.
Proof. unfold same_read, read_columns. congruence. Qed.

Lemma same_read_points (df1 df2 : DataFrame) :
  Forall2 same_read df1 df2 -> map points df1 = map points df2.
Proof.
  induction 1 as [|e1 e2 df1 df2 He _ IH]; simpl; [reflexivity|].
  rewrite IH. f_equal. unfold same_read, read_columns in He. congruence.
Qed.

Lemma same_read_plays (df1 df2 : DataFrame) :
  Forall2 same_read df1 df2 -> map play df1 = map play df2.
Proof.
  induction 1 as [|e1 e2 df1 df2 He _ IH]; simpl; [reflexivity|].
  rewrite IH. f_equal. now apply same_read_play.
Qed.

Lemma same_read_events_of (df1 df2 : DataFrame) (p : string) :
  Forall2 same_read df1 df2 ->
  Forall2 same_read (events_of df1 p) (events_of df2 p).
Proof.
  apply Forall2_filter_same_read. intros e1 e2 He.
  now rewrite (same_read_play e1 e2 He).
Qed.

Lemma same_read_metrics_of (df1 df2 : DataFrame) (k : string) :
  Forall2 same_read df1 df2 -> metrics_of df1 k = metrics_of df2 k.
Proof.
  intros H.
  assert (Hev := same_read_events_of df1 df2 k H).
  assert (Ha : attempts_of df1 k = attempts_of df2 k).
  { unfold attempts_of. now rewrite (Forall2_length Hev). }
  assert (Hp : points_of df1 k = points_of df2 k).
  { unfold points_of. now rewrite (same_read_points _ _ Hev). }
  assert (Hres : forall vs,
            List.length (filter (fun e => isin (result e) vs) (events_of df1 k))
            = List.length (filter (fun e => isin (result e) vs) (events_of df2 k))).
  { intros vs. apply Forall2_length with (R := same_read).
    apply Forall2_filter_same_read; [|exact Hev].
    intros e1 e2 He. now rewrite (same_read_result e1 e2 He). }
  unfold metrics_of, made_of, shots_of.
  rewrite Ha, Hp, !Hres, (Forall2_length H). reflexivity.
Qed.

Lemma same_read_compute_metrics (df1 df2 : DataFrame) :
  map read_columns df1 = map read_columns df2 ->
  compute_metrics df1 = compute_metrics df2.
Proof.
  intros H. apply same_read_of_map in H.
  rewrite !compute_metrics_eq.
  assert (He : empty df1 = empty df2) by (destruct H; reflexivity).
  rewrite He. destruct (empty df2); [reflexivity|].
  unfold unsorted_metrics, group_keys.
  rewrite (same_read_plays _ _ H). do 2 f_equal.
  apply map_ext. intros k. now apply same_read_metrics_of.
Qed.

(** ** Comparisons of binary64 numbers as comparisons of ranks *)

Ltac compare_cases :=
  repeat match goal with
  | |- context [Z.compare ?a ?b] => destruct (Z.compare_spec a b)
  | |- context [Pos.compare_cont Eq ?a ?b] =>
      change (Pos.compare_cont Eq a b) with (Pos.compare a b);
      destruct (Pos.compare_spec a b)
  end.

Ltac rank_cases x y :=
  destruct x as [[]|[]| |[] ? ?], y as [[]|[]| |[] ? ?];
  unfold rank_lt, rank_eq; cbn [rk1 rk2 rk3 rk4 SFcompare];
  compare_cases; cbn [CompOpp];
  split; intro; try discriminate; try reflexivity; try lia.

(** [x] greater than [y] as numbers: [x] has the smaller rank. *)
Lemma SFcompare_Gt_rank (x y : spec_float) :
  SFcompare x y = Some Gt <-> (rk1 x = 0 /\ rk1 y = 0 /\ rank_lt x y).
Proof. rank_cases x y. Qed.

Lemma SFcompare_Lt_rank (x y : spec_float) :
  SFcompare x y = Some Lt <-> (rk1 x = 0 /\ rk1 y = 0 /\ rank_lt y x).
Proof. rank_cases x y. Qed.

Lemma SFcompare_Eq_rank (x y : spec_float) :
  SFcompare x y = Some Eq <-> (rk1 x = 0 /\ rk1 y = 0 /\ rank_eq x y).
Proof. rank_cases x y. Qed.

Lemma rk1_nan_rest (x : spec_float) :
  (rk1 x = 0 \/ rk1 x = 1) /\ (rk1 x = 1 -> rk2 x = 0 /\ rk3 x = 0 /\ rk4 x = 0).
Proof. destruct x as [[]|[]| |[] ? ?]; cbn; split; auto; discriminate. Qed.

Lemma rank_eq_refl (x : spec_float) : rank_eq x x.
Proof. unfold rank_eq. auto. Qed.

Lemma eqb_rank (x y : float) :
  PrimFloat.eqb x y = true
  <-> rk1 (Prim2SF x) = 0 /\ rk1 (Prim2SF y) = 0 /\ rank_eq (Prim2SF x) (Prim2SF y).
Proof.
  rewrite eqb_spec. unfold SFeqb. rewrite <- SFcompare_Eq_rank.
  destruct (SFcompare (Prim2SF x) (Prim2SF y)) as [[]|];
    split; intro; congruence.
Qed.

Lemma ltb_rank (y x : float) :
  PrimFloat.ltb y x = true
  <-> rk1 (Prim2SF x) = 0 /\ rk1 (Prim2SF y) = 0 /\ rank_lt (Prim2SF x) (Prim2SF y).
Proof.
  rewrite ltb_spec. unfold SFltb.
  assert (H := SFcompare_Lt_rank (Prim2SF y) (Prim2SF x)).
  destruct (SFcompare (Prim2SF y) (Prim2SF x)) as [[]|];
    split; intro H'; try discriminate; try reflexivity; try tauto;
    exfalso; assert (E : rk1 (Prim2SF y) = 0 /\ rk1 (Prim2SF x) = 0
                         /\ rank_lt (Prim2SF x) (Prim2SF y)) by tauto;
    apply H in E; discriminate.
Qed.

Lemma leb_rank (y x : float) :
  PrimFloat.leb y x = true
  <-> rk1 (Prim2SF x) = 0 /\ rk1 (Prim2SF y) = 0
      /\ (rank_lt (Prim2SF x) (Prim2SF y) \/ rank_eq (Prim2SF x) (Prim2SF y)).
Proof.
  rewrite leb_spec. unfold SFleb.
  assert (Hl := SFcompare_Lt_rank (Prim2SF y) (Prim2SF x)).
  assert (He := SFcompare_Eq_rank (Prim2SF y) (Prim2SF x)).
  unfold rank_eq in *.
  destruct (SFcompare (Prim2SF y) (Prim2SF x)) as [[]|]; split; intro H';
    try discriminate; try reflexivity.
  - destruct He as [He _]. specialize (He eq_refl). intuition lia.
  - destruct Hl as [Hl _]. specialize (Hl eq_refl). tauto.
  - exfalso. destruct H' as (H1 & H2 & [H3|H3]).
    + assert (E : Some Gt = Some Lt) by (apply Hl; tauto). discriminate.
    + assert (E : Some Gt = Some Eq) by (apply He; intuition lia). discriminate.
  - exfalso. destruct H' as (H1 & H2 & [H3|H3]).
    + assert (E : @None comparison = Some Lt) by (apply Hl; tauto). discriminate.
    + assert (E : @None comparison = Some Eq) by (apply He; intuition lia). discriminate.
Qed.

Lemma is_nan_rank (x : float) :
  PrimFloat.is_nan x = false <-> rk1 (Prim2SF x) = 0.
Proof.
  unfold PrimFloat.is_nan. rewrite negb_false_iff, eqb_rank.
  assert (H := rank_eq_refl (Prim2SF x)). tauto.
Qed.

Lemma ppp_before_rank (x y : float) :
  ppp_before x y = true <-> rank_lt (Prim2SF x) (Prim2SF y).
Proof.
  unfold ppp_before.
  assert (Hx := is_nan_rank x). assert (Hy := is_nan_rank y).
  assert (Hl := ltb_rank y x).
  destruct (rk1_nan_rest (Prim2SF x)) as [Rx Zx].
  destruct (rk1_nan_rest (Prim2SF y)) as [Ry Zy].
  unfold rank_lt in *.
  destruct (PrimFloat.is_nan x), (PrimFloat.is_nan y);
    split; intro H; [try discriminate | try reflexivity ..];
    intuition (try discriminate; try lia).
Qed.

Lemma ppp_tie_rank (x y : float) :
  ppp_tie x y = true <-> rank_eq (Prim2SF x) (Prim2SF y).
Proof.
  unfold ppp_tie. rewrite orb_true_iff, andb_true_iff, eqb_rank.
  assert (Hx := is_nan_rank x). assert (Hy := is_nan_rank y).
  destruct (rk1_nan_rest (Prim2SF x)) as [Rx Zx].
  destruct (rk1_nan_rest (Prim2SF y)) as [Ry Zy].
  unfold rank_eq.
  destruct (PrimFloat.is_nan x), (PrimFloat.is_nan y);
    intuition (try discriminate; try lia).
Qed.

Lemma row_le_rank (a b : metrics_row) :
  row_le a b = true
  <-> rank_lt (Prim2SF (PPP a)) (Prim2SF (PPP b))
      \/ (rank_eq (Prim2SF (PPP a)) (Prim2SF (PPP b)) /\ Attempts b <= Attempts a).
Proof.
  unfold row_le.
  rewrite orb_true_iff, andb_true_iff, ppp_before_rank, ppp_tie_rank, Z.leb_le.
  reflexivity.
Qed.

Lemma row_le_total (a b : metrics_row) : row_le a b = false -> row_le b a = true.
Proof.
  intros H. apply row_le_rank.
  assert (N : ~ (row_le a b = true)) by congruence.
  rewrite row_le_rank in N. unfold rank_lt, rank_eq in *. lia.
Qed.

Lemma row_le_trans (a b c : metrics_row) :
  row_le a b = true -> row_le b c = true -> row_le a c = true.
Proof.
  rewrite !row_le_rank. unfold rank_lt, rank_eq. lia.
Qed.

Lemma rows_sorted (df : DataFrame) :
  StronglySorted (fun a b => row_le a b = true) (rows (compute_metrics df)).
Proof.
  destruct df as [|e df]; [constructor|].
  rewrite compute_metrics_rows by discriminate.
  apply stable_sort_sorted; [exact row_le_total | exact row_le_trans].
Qed.

(** ** PPP is a number

    A quotient of two converted integers is never NaN when the divisor is a
    positive integer below [2^53]. *)

Lemma iter_pos_invariant {A : Type} (P : A -> Prop) (f : A -> A) :
  (forall x, P x -> P (f x)) -> forall n x, P x -> P (iter_pos f n x).
Proof.
  intros Hf. induction n as [n IH|n IH|]; intros x Hx; simpl; auto.
Qed.

Lemma shr_1_nonneg (mrs : shr_record) : 0 <= shr_m mrs -> 0 <= shr_m (shr_1 mrs).
Proof.
  destruct mrs as [m r s]. destruct m as [|[p|p|]|p]; simpl; lia.
Qed.

Lemma shr_nonneg (mrs : shr_record) (e n : Z) :
  0 <= shr_m mrs -> 0 <= shr_m (fst (shr mrs e n)).
Proof.
  intros H. unfold shr. destruct n; simpl; auto.
  apply (iter_pos_invariant (fun x => 0 <= shr_m x)); auto using shr_1_nonneg.
Qed.

Lemma shr_fexp_nonneg (m e : Z) (l : location) :
  0 <= m -> 0 <= shr_m (fst (shr_fexp prec emax m e l)).
Proof.
  intros H. unfold shr_fexp. apply shr_nonneg.
  destruct l as [|[]]; exact H.
Qed.

Lemma round_nearest_even_nonneg (m : Z) (l : location) :
  0 <= m -> 0 <= round_nearest_even m l.
Proof.
  intros H. destruct l as [|[]]; simpl; try lia. destruct (Z.even m); lia.
Qed.

Lemma binary_round_aux_number (sx : bool) (mx ex : Z) (lx : location) :
  0 <= mx -> rk1 (binary_round_aux prec emax sx mx ex lx) = 0.
Proof.
  intros H. unfold binary_round_aux.
  assert (H1 := shr_fexp_nonneg mx ex lx H).
  destruct (shr_fexp prec emax mx ex lx) as [mrs' e']. simpl in H1.
  assert (H2 := shr_fexp_nonneg
                  (round_nearest_even (shr_m mrs') (loc_of_shr_record mrs'))
                  e' loc_Exact (round_nearest_even_nonneg _ _ H1)).
  destruct (shr_fexp prec emax _ e' loc_Exact) as [mrs'' e'']. simpl in H2.
  destruct (shr_m mrs''); [reflexivity| |lia].
  destruct (e'' <=? emax - prec); reflexivity.
Qed.

Lemma binary_normalize_number (m e : Z) (s : bool) :
  rk1 (binary_normalize prec emax m e s) = 0.
Proof.
  unfold binary_normalize, binary_round.
  destruct m as [|p|p]; [reflexivity| |];
    destruct (shl_align _ _ _) as [mz ez]; now apply binary_round_aux_number.
Qed.

Lemma float_of_int_number (z : Z) : rk1 (Prim2SF (float_of_int z)) = 0.
Proof.
  unfold float_of_int. destruct (z <? 0).
  - rewrite opp_spec, of_uint63_spec.
    assert (H := binary_normalize_number (Uint63.to_Z (Uint63.of_Z (- z))) 0 false).
    destruct (binary_normalize _ _ _ _ _); simpl in *; auto.
  - rewrite of_uint63_spec. apply binary_normalize_number.
Qed.

Lemma digits2_pos_bound (p : positive) (n : Z) :
  Zpos p < 2 ^ n -> Zpos (digits2_pos p) <= n.
Proof.
  revert n. induction p as [p IH|p IH|]; intros n H.
  - assert (0 < n) by (destruct n; [simpl in H; lia | lia | simpl in H; lia]).
    simpl. rewrite Pos2Z.inj_succ.
    assert (Zpos (digits2_pos p) <= n - 1); [|lia].
    apply IH. replace n with (Z.succ (n - 1)) in H by lia.
    rewrite Z.pow_succ_r in H by lia. lia.
  - assert (0 < n) by (destruct n; [simpl in H; lia | lia | simpl in H; lia]).
    simpl. rewrite Pos2Z.inj_succ.
    assert (Zpos (digits2_pos p) <= n - 1); [|lia].
    apply IH. replace n with (Z.succ (n - 1)) in H by lia.
    rewrite Z.pow_succ_r in H by lia. lia.
  - simpl. destruct n; [simpl in H; lia | lia | simpl in H; lia].
Qed.

Lemma digits2_pos_shift (p k : positive) :
  Zpos (digits2_pos (Pos.iter xO p k)) = Zpos (digits2_pos p) + Zpos k.
Proof.
  induction k as [|k IH] using Pos.peano_ind.
  - simpl. lia.
  - rewrite Pos.iter_succ. simpl. lia.
Qed.

Lemma binary_round_aux_exact (sx : bool) (mz : positive) (ez : Z) :
  Zpos (digits2_pos mz) = 53 -> -1074 <= ez <= 971 ->
  binary_round_aux prec emax sx (Zpos mz) ez loc_Exact = S754_finite sx mz ez.
Proof.
  intros Hd He.
  assert (Hs : shr_fexp prec emax (Zpos mz) ez loc_Exact
               = (Build_shr_record (Zpos mz) false false, ez)).
  { unfold shr_fexp, fexp, SpecFloat.emin. cbn [Zdigits2 shr_record_of_loc].
    rewrite Hd.
    replace (Z.max (53 + ez - prec) (3 - emax - prec) - ez) with 0
      by (unfold prec, emax; lia).
    reflexivity. }
  unfold binary_round_aux. rewrite Hs.
  cbn [shr_m loc_of_shr_record round_nearest_even]. rewrite Hs. cbn [shr_m].
  replace (ez <=? emax - prec) with true
    by (symmetry; apply Z.leb_le; unfold prec, emax; lia).
  reflexivity.
Qed.

(** A positive integer below [2^53] converts to a finite positive number. *)
Lemma float_of_int_finite (z : Z) :
  0 < z < 2 ^ 53 ->
  exists m e, Prim2SF (float_of_int z) = S754_finite false m e.
Proof.
  intros Hz. unfold float_of_int.
  replace (z <? 0) with false by (symmetry; apply Z.ltb_ge; lia).
  rewrite of_uint63_spec, Uint63.of_Z_spec.
  rewrite Z.mod_small
    by (split; [lia | apply Z.lt_trans with (2 ^ 53); [lia | reflexivity]]).
  destruct z as [|p|p]; try lia.
  unfold binary_normalize, binary_round.
  assert (Hd := digits2_pos_bound p 53 (proj2 Hz)).
  assert (Hd1 : 1 <= Zpos (digits2_pos p)) by lia.
  set (d := Zpos (digits2_pos p)) in *.
  assert (Hf : fexp prec emax (d + 0) = d - 53).
  { unfold fexp, SpecFloat.emin, prec, emax. lia. }
  rewrite Hf. unfold shl_align.
  destruct (d - 53 - 0) as [|k|k] eqn:Ek; try lia.
  - exists p, 0. apply binary_round_aux_exact; [fold d; lia | lia].
  - exists (Pos.iter xO p k), (d - 53).
    apply binary_round_aux_exact; [|lia].
    rewrite digits2_pos_shift. fold d. lia.
Qed.

Lemma SFdiv_number (x y : spec_float) :
  rk1 x = 0 -> (exists m e, y = S754_finite false m e) ->
  rk1 (SFdiv prec emax x y) = 0.
Proof.
  intros Hx (my & ey & ->).
  destruct x as [sx|sx| |sx mx ex]; try reflexivity; [discriminate|].
  unfold SFdiv, SFdiv_core_binary.
  set (s := ex - ey - _).
  set (m' := match s with Z0 => Zpos mx | Zpos _ => Z.shiftl (Zpos mx) s | Zneg _ => 0 end).
  assert (Hm : 0 <= m').
  { unfold m'. destruct s; try lia. apply Z.shiftl_nonneg. lia. }
  assert (Hq := Z.div_pos m' (Zpos my) Hm ltac:(lia)).
  unfold Z.div in Hq.
  destruct (Z.div_eucl m' (Zpos my)) as [q r]. simpl in Hq.
  now apply binary_round_aux_number.
Qed.

(** Float division of a converted integer by a converted positive integer
    below [2^53] is not NaN. *)
Lemma quotient_is_number (n d : Z) :
  0 < d < 2 ^ 53 ->
  PrimFloat.is_nan (PrimFloat.div (float_of_int n) (float_of_int d)) = false.
Proof.
  intros Hd. apply is_nan_rank. rewrite div_spec.
  apply SFdiv_number; [apply float_of_int_number | now apply float_of_int_finite].
Qed.

Lemma attempts_of_le_length (df : DataFrame) (p : string) :
  attempts_of df p <= Z.of_nat (List.length df).
Proof.
  unfold attempts_of, events_of. apply inj_le.
  induction df as [|e df IH]; simpl; [lia|].
  destruct (String.eqb (play e) p); simpl; lia.
Qed.

Lemma rows_PPP_number (df : DataFrame) (r : metrics_row) :
  Z.of_nat (List.length df) < 2 ^ 53 ->
  In r (rows (compute_metrics df)) -> PrimFloat.is_nan (PPP r) = false.
Proof.
  intros Hlen Hr. apply rows_In in Hr. destruct Hr as (k & Hk & ->).
  unfold metrics_of. cbn [PPP]. apply quotient_is_number.
  assert (H1 := attempts_of_pos df k Hk).
  assert (H2 := attempts_of_le_length df k). lia.
Qed.

(** ** The rounding of a quotient

    [Frequency] is a binary64 quotient of two integers below [2^53]. Both
    convert without error to numbers of 53 bits; the division computes the
    integer quotient of the mantissas, 53 bits further, with the place of
    the remainder, and rounds it to 53 bits, to nearest, ties to even. The
    result is within a factor [2^-53] of the exact quotient. *)

Lemma digits2_pos_range (p : positive) :
  2 ^ (Zpos (digits2_pos p) - 1) <= Zpos p < 2 ^ Zpos (digits2_pos p).
Proof.
  induction p as [p IH|p IH|]; cbn [digits2_pos].
  - rewrite Pos2Z.inj_succ.
    replace (Z.succ (Zpos (digits2_pos p)) - 1) with (Z.succ (Zpos (digits2_pos p) - 1)) by lia.
    rewrite !Z.pow_succ_r by lia. lia.
  - rewrite Pos2Z.inj_succ.
    replace (Z.succ (Zpos (digits2_pos p)) - 1) with (Z.succ (Zpos (digits2_pos p) - 1)) by lia.
    rewrite !Z.pow_succ_r by lia. lia.
  - simpl. lia.
Qed.

Lemma digits2_pos_unique (p : positive) (d : Z) :
  2 ^ (d - 1) <= Zpos p < 2 ^ d -> Zpos (digits2_pos p) = d.
Proof.
  intros [Hl Hu]. assert (H := digits2_pos_range p).
  assert (0 < d).
  { destruct d as [|d|d]; [simpl in Hu; lia | lia | simpl in Hu; lia]. }
  assert (d - 1 < Zpos (digits2_pos p)).
  { apply (Z.pow_lt_mono_r_iff 2); [lia | lia | lia]. }
  assert (Zpos (digits2_pos p) - 1 < d).
  { apply (Z.pow_lt_mono_r_iff 2); [lia | lia | lia]. }
  lia.
Qed.

(** What the location of a remainder says about it. *)
Lemma new_location_spec (d r : Z) :
  0 <= r < d ->
  match new_location d r with
  | loc_Exact => r = 0
  | loc_Inexact Lt => 0 < r /\ 2 * r < d
  | loc_Inexact Eq => 2 * r = d
  | loc_Inexact Gt => d < 2 * r
  end.
Proof.
  intros Hr. unfold new_location, new_location_even, new_location_odd.
  destruct (Z.even d) eqn:Ev.
  - destruct (Z.eqb_spec r 0) as [E|E]; [exact E|].
    destruct (Z.compare_spec (2 * r) d); lia.
  - destruct (Z.eqb_spec r 0) as [E|E]; [exact E|].
    assert (Hodd : Z.odd d = true) by (rewrite <- Z.negb_even, Ev; reflexivity).
    apply Z.odd_spec in Hodd. destruct Hodd as (k & Hk).
    destruct (Z.compare_spec (2 * r + 1) d); lia.
Qed.

Lemma shr_fexp_53 (m : positive) (e : Z) (l : location) :
  Zpos (digits2_pos m) = 53 -> -1074 <= e ->
  shr_fexp prec emax (Zpos m) e l = (shr_record_of_loc (Zpos m) l, e).
Proof.
  intros Hd He. unfold shr_fexp, fexp, SpecFloat.emin. cbn [Zdigits2]. rewrite Hd.
  replace (Z.max (53 + e - prec) (3 - emax - prec) - e) with 0
    by (unfold prec, emax; lia).
  reflexivity.
Qed.

Lemma shr_fexp_54 (m : positive) (e : Z) (l : location) :
  Zpos (digits2_pos m) = 54 -> -1074 <= e ->
  shr_fexp prec emax (Zpos m) e l
  = (shr_1 (shr_record_of_loc (Zpos m) l), e + 1).
Proof.
  intros Hd He. unfold shr_fexp, fexp, SpecFloat.emin. cbn [Zdigits2]. rewrite Hd.
  replace (Z.max (54 + e - prec) (3 - emax - prec) - e) with 1
    by (unfold prec, emax; lia).
  reflexivity.
Qed.

Lemma shr_record_of_loc_m (m : Z) (l : location) :
  shr_m (shr_record_of_loc m l) = m.
Proof. destruct l as [|[]]; reflexivity. Qed.

Lemma loc_of_shr_record_of_loc (m : Z) (l : location) :
  loc_of_shr_record (shr_record_of_loc m l) = l.
Proof. destruct l as [|[]]; reflexivity. Qed.

(** One shift to the right: the last bit goes to the round bit, and the
    sticky bit remembers whether anything was lost before. *)
Lemma shr_1_spec (p : positive) (l : location) :
  let mrs := shr_1 (shr_record_of_loc (Zpos p) l) in
  Zpos p = 2 * shr_m mrs + (if shr_r mrs then 1 else 0)
  /\ shr_s mrs = match l with loc_Exact => false | _ => true end.
Proof.
  destruct p, l as [|[]]; cbn [shr_1 shr_record_of_loc shr_m shr_r shr_s orb];
    split; try reflexivity; lia.
Qed.

(** The last step of rounding: a mantissa that reached [2^53] is shifted
    once more. *)
Lemma round_finish (R : positive) (e : Z) :
  2 ^ 52 <= Zpos R <= 2 ^ 53 -> -1074 <= e ->
  exists mrs e2 m2,
    shr_fexp prec emax (Zpos R) e loc_Exact = (mrs, e2)
    /\ shr_m mrs = Zpos m2 /\ e <= e2 <= e + 1
    /\ Zpos m2 * 2 ^ (e2 - e) = Zpos R.
Proof.
  intros HR He. destruct (Z.eq_dec (Zpos R) (2 ^ 53)) as [E|E].
  - assert (R = 9007199254740992%positive) by (change (2 ^ 53) with 9007199254740992 in E; lia).
    subst R. rewrite shr_fexp_54 by (try reflexivity; lia).
    eexists _, _, 4503599627370496%positive.
    split; [reflexivity|]. split; [reflexivity|]. split; [lia|].
    replace (e + 1 - e) with 1 by lia. reflexivity.
  - rewrite shr_fexp_53 by (try apply digits2_pos_unique; lia).
    eexists _, _, R. split; [reflexivity|]. split; [reflexivity|].
    split; [lia|]. replace (e - e) with 0 by lia. lia.
Qed.

Lemma round_nearest_even_53 (q d r : Z) (l : location) :
  0 <= r < d ->
  match l with
  | loc_Exact => r = 0
  | loc_Inexact Lt => 0 < r /\ 2 * r < d
  | loc_Inexact Eq => 2 * r = d
  | loc_Inexact Gt => d < 2 * r
  end ->
  let R := round_nearest_even q l in
  q <= R <= q + 1 /\ - d <= 2 * (R * d - (q * d + r)) <= d.
Proof.
  intros Hr Hl. destruct l as [|[]]; cbn [round_nearest_even];
    try destruct (Z.even q); cbv zeta; split; lia.
Qed.

Lemma round_nearest_even_54 (mrs : shr_record) (q d r : Z) (l : location) :
  q = 2 * shr_m mrs + (if shr_r mrs then 1 else 0) ->
  shr_s mrs = match l with loc_Exact => false | _ => true end ->
  0 <= r < d ->
  match l with
  | loc_Exact => r = 0
  | loc_Inexact Lt => 0 < r /\ 2 * r < d
  | loc_Inexact Eq => 2 * r = d
  | loc_Inexact Gt => d < 2 * r
  end ->
  let R := round_nearest_even (shr_m mrs) (loc_of_shr_record mrs) in
  shr_m mrs <= R <= shr_m mrs + 1
  /\ - d <= 2 * R * d - (q * d + r) <= d.
Proof.
  intros Hq Hs Hr Hl. destruct mrs as [h [] []];
    cbn [shr_m shr_r shr_s loc_of_shr_record round_nearest_even] in *;
    destruct l as [|[]]; try discriminate Hs;
    try destruct (Z.even h); cbv zeta; subst q; split; lia.
Qed.

(** Rounding the quotient [q] with remainder [r] of a division by [d]: the
    result is a number [m * 2^e2] within half a unit of [q + r / d], where
    the unit is [2^e] for a quotient of 53 bits and [2^(e+1)] for one of
    54. *)
Lemma binary_round_aux_quotient (q r d e : Z) :
  0 <= r < d -> 2 ^ 52 <= q < 2 ^ 54 -> -1074 <= e <= 900 ->
  exists m e2,
    binary_round_aux prec emax false q e (new_location d r)
    = S754_finite false m e2
    /\ e <= e2
    /\ (q < 2 ^ 53 ->
        - d <= 2 * (Zpos m * 2 ^ (e2 - e) * d - (q * d + r)) <= d)
    /\ (2 ^ 53 <= q ->
        - d <= Zpos m * 2 ^ (e2 - e) * d - (q * d + r) <= d).
Proof.
  intros Hr Hq He. assert (Hl := new_location_spec d r Hr).
  set (l := new_location d r) in *. clearbody l.
  destruct q as [|q|q]; try lia.
  unfold binary_round_aux.
  destruct (Z.lt_ge_cases (Zpos q) (2 ^ 53)) as [Hlt|Hge].
  - rewrite shr_fexp_53 by (try apply digits2_pos_unique; lia).
    rewrite shr_record_of_loc_m, loc_of_shr_record_of_loc.
    destruct (round_nearest_even_53 (Zpos q) d r l Hr Hl) as [HR Hb].
    destruct (round_nearest_even (Zpos q) l) as [|R|R]; try lia.
    destruct (round_finish R e) as (mrs & e2 & m2 & -> & -> & He2 & Hv);
      [lia | lia |].
    exists m2, e2.
    replace (e2 <=? emax - prec) with true
      by (symmetry; apply Z.leb_le; unfold prec, emax; lia).
    split; [reflexivity|]. split; [lia|]. rewrite Hv. split; [intros _; exact Hb | lia].
  - rewrite shr_fexp_54 by (try apply digits2_pos_unique; lia).
    destruct (shr_1_spec q l) as [Hm Hs].
    set (mrs1 := shr_1 (shr_record_of_loc (Zpos q) l)) in *. clearbody mrs1.
    destruct (round_nearest_even_54 mrs1 (Zpos q) d r l Hm Hs Hr Hl) as [HR Hb].
    assert (Hh : 2 ^ 52 <= shr_m mrs1 < 2 ^ 53).
    { change (2 ^ 54) with (2 * 2 ^ 53) in Hq. change (2 ^ 53) with (2 * 2 ^ 52) in Hge.
      destruct (shr_r mrs1); lia. }
    destruct (round_nearest_even (shr_m mrs1) (loc_of_shr_record mrs1)) as [|R|R];
      try lia.
    destruct (round_finish R (e + 1)) as (mrs & e2 & m2 & -> & -> & He2 & Hv);
      [lia | lia |].
    exists m2, e2.
    replace (e2 <=? emax - prec) with true
      by (symmetry; apply Z.leb_le; unfold prec, emax; lia).
    split; [reflexivity|]. split; [lia|].
    replace (e2 - e) with (Z.succ (e2 - (e + 1))) by lia.
    rewrite Z.pow_succ_r by lia.
    replace (Zpos m2 * (2 * 2 ^ (e2 - (e + 1)))) with (2 * (Zpos m2 * 2 ^ (e2 - (e + 1)))) by ring.
    rewrite Hv. split; [lia | intros _; exact Hb].
Qed.

Lemma SFdiv_rounds (ma mt : positive) (ea et : Z) :
  Zpos (digits2_pos ma) = 53 -> Zpos (digits2_pos mt) = 53 ->
  -52 <= ea <= 0 -> -52 <= et <= 0 ->
  exists m e,
    SFdiv prec emax (S754_finite false ma ea) (S754_finite false mt et)
    = S754_finite false m e
    /\ ea - et - 53 <= e
    /\ - Zpos ma
       <= Zpos m * 2 ^ (e - (ea - et - 53)) * Zpos mt - Zpos ma * 2 ^ 53
       <= Zpos ma.
Proof.
  intros Hda Hdt Hea Het.
  assert (Ra := digits2_pos_range ma). assert (Rt := digits2_pos_range mt).
  rewrite Hda in Ra. rewrite Hdt in Rt.
  change (2 ^ (53 - 1)) with (2 ^ 52) in *.
  unfold SFdiv, SFdiv_core_binary. cbn [Zdigits2]. rewrite Hda, Hdt.
  assert (He : Z.min (fexp prec emax (53 + ea - (53 + et))) (ea - et)
               = ea - et - 53).
  { unfold fexp, SpecFloat.emin, prec, emax. lia. }
  rewrite He. replace (ea - et - (ea - et - 53)) with 53 by lia.
  cbv iota zeta.
  change (IntDef.Z.div_eucl (IntDef.Z.shiftl (Zpos ma) 53) (Zpos mt))
    with (Z.div_eucl (Z.shiftl (Zpos ma) 53) (Zpos mt)).
  rewrite Z.shiftl_mul_pow2 by lia.
  assert (Hdiv := Z_div_mod (Zpos ma * 2 ^ 53) (Zpos mt) eq_refl).
  destruct (Z.div_eucl (Zpos ma * 2 ^ 53) (Zpos mt)) as [q r].
  destruct Hdiv as [Hn Hr].
  assert (Hq : 2 ^ 52 <= q < 2 ^ 54).
  { split.
    - apply Z.lt_succ_r. apply Z.nle_gt. intros Hc.
      assert (Zpos mt * (q + 1) <= Zpos mt * 2 ^ 52) by (apply Z.mul_le_mono_nonneg_l; lia).
      assert (Zpos mt * 2 ^ 52 < 2 ^ 53 * 2 ^ 52) by (apply Z.mul_lt_mono_pos_r; lia).
      assert (2 ^ 52 * 2 ^ 53 <= Zpos ma * 2 ^ 53) by (apply Z.mul_le_mono_nonneg_r; lia).
      lia.
    - apply Z.nle_gt. intros Hc.
      assert (2 ^ 52 * 2 ^ 54 <= Zpos mt * q).
      { apply Z.mul_le_mono_nonneg; lia. }
      assert (Zpos ma * 2 ^ 53 < 2 ^ 53 * 2 ^ 53) by (apply Z.mul_lt_mono_pos_r; lia).
      change (2 ^ 52 * 2 ^ 54) with (2 ^ 53 * 2 ^ 53) in *. lia. }
  destruct (binary_round_aux_quotient q r (Zpos mt) (ea - et - 53) Hr Hq)
    as (m & e & Hres & Hle & Hs & Hb); [lia|].
  exists m, e. split; [exact Hres|]. split; [exact Hle|].
  set (V := Zpos m * 2 ^ (e - (ea - et - 53))) in *.
  rewrite Hn.
  replace (V * Zpos mt - (Zpos mt * q + r)) with (V * Zpos mt - (q * Zpos mt + r)) by ring.
  destruct (Z.lt_ge_cases q (2 ^ 53)) as [Hlt|Hge].
  - specialize (Hs Hlt).
    assert (Zpos mt * 2 ^ 52 <= Zpos mt * q) by (apply Z.mul_le_mono_nonneg_l; lia).
    change (2 ^ 53) with (2 * 2 ^ 52) in Hn. lia.
  - specialize (Hb Hge).
    assert (Zpos mt * 2 ^ 53 <= Zpos mt * q) by (apply Z.mul_le_mono_nonneg_l; lia).
    lia.
Qed.

Lemma iter_xO_value (p k : positive) :
  Zpos (Pos.iter xO p k) = Zpos p * 2 ^ Zpos k.
Proof.
  induction k as [|k IH] using Pos.peano_ind.
  - simpl. lia.
  - rewrite Pos.iter_succ, Pos2Z.inj_succ, Z.pow_succ_r by lia.
    rewrite Pos2Z.inj_xO, IH. ring.
Qed.

Lemma float_of_int_value (z : Z) :
  0 < z < 2 ^ 53 ->
  exists m e,
    Prim2SF (float_of_int z) = S754_finite false m e
    /\ Zpos (digits2_pos m) = 53 /\ -52 <= e <= 0
    /\ Zpos m = z * 2 ^ (- e).
Proof.
  intros Hz. unfold float_of_int.
  replace (z <? 0) with false by (symmetry; apply Z.ltb_ge; lia).
  rewrite of_uint63_spec, Uint63.of_Z_spec.
  rewrite Z.mod_small
    by (split; [lia | apply Z.lt_trans with (2 ^ 53); [lia | reflexivity]]).
  destruct z as [|p|p]; try lia.
  unfold binary_normalize, binary_round.
  assert (Hd := digits2_pos_bound p 53 (proj2 Hz)).
  assert (Hd1 : 1 <= Zpos (digits2_pos p)) by lia.
  set (d := Zpos (digits2_pos p)) in *.
  assert (Hf : fexp prec emax (d + 0) = d - 53).
  { unfold fexp, SpecFloat.emin, prec, emax. lia. }
  rewrite Hf. unfold shl_align.
  destruct (d - 53 - 0) as [|k|k] eqn:Ek; try lia.
  - exists p, 0. split; [apply binary_round_aux_exact; [fold d; lia | lia]|].
    fold d. split; [lia|]. split; [lia|]. simpl. lia.
  - exists (Pos.iter xO p k), (d - 53).
    assert (Hk : Zpos (digits2_pos (Pos.iter xO p k)) = 53)
      by (rewrite digits2_pos_shift; fold d; lia).
    split; [apply binary_round_aux_exact; [exact Hk | lia]|].
    split; [exact Hk|]. split; [lia|].
    rewrite iter_xO_value. f_equal. f_equal. lia.
Qed.

Local Open Scope Q_scope.

Lemma Qpower2_ratio (p n : Z) :
  (0 <= p)%Z -> (0 <= n)%Z ->
  Qpower 2 (p - n) == (2 ^ p)%Z # Z.to_pos (2 ^ n).
Proof.
  intros Hp Hn.
  assert (H2 : ~ 2 == 0) by discriminate.
  unfold Z.sub. rewrite Qpower_plus by exact H2. rewrite Qpower_opp.
  change 2 with (inject_Z 2).
  rewrite <- !Zpower_Qpower by assumption.
  rewrite Qmake_Qdiv. rewrite Z2Pos.id by (apply Z.pow_pos_nonneg; lia).
  reflexivity.
Qed.

Lemma Qabs_diff_bound (n1 : Z) (d1 : positive) (n2 : Z) (d2 : positive)
    (b : Z) (db : positive) :
  (Z.abs (n1 * Zpos d2 - n2 * Zpos d1) * Zpos db <= b * Zpos (d1 * d2))%Z ->
  Qabs ((n1 # d1) - (n2 # d2)) <= b # db.
Proof.
  intros H. unfold Qle, Qminus, Qplus, Qopp, Qabs. cbn [Qnum Qden].
  replace (n1 * Zpos d2 + - n2 * Zpos d1)%Z with (n1 * Zpos d2 - n2 * Zpos d1)%Z
    by ring.
  exact H.
Qed.

(** The error of one cell: the float64 quotient of [a] by [t] is within
    [a / t * 2^-53] of [a / t]. *)
Lemma quotient_error (a t : Z) :
  (0 < a <= t)%Z -> (t < 2 ^ 53)%Z ->
  Qabs (float_to_Q (PrimFloat.div (float_of_int a) (float_of_int t))
        - (a # Z.to_pos t))
  <= a # (Z.to_pos t * 9007199254740992).
Proof.
  intros Ha Ht.
  destruct (float_of_int_value a) as (ma & ea & Hxa & Hda & Hea & Hva); [lia|].
  destruct (float_of_int_value t) as (mt & et & Hxt & Hdt & Het & Hvt); [lia|].
  destruct (SFdiv_rounds ma mt ea et Hda Hdt Hea Het) as (m & e & Hdiv & He & Hb).
  assert (HF : float_to_Q (PrimFloat.div (float_of_int a) (float_of_int t))
               == (Zpos m * 2 ^ (e - (ea - et - 53) + - et))%Z
                  # Z.to_pos (2 ^ (- ea + 53))).
  { unfold float_to_Q. rewrite div_spec, Hxa, Hxt.
    unfold SF64div. rewrite Hdiv.
    replace e with (e - (ea - et - 53) + - et - (- ea + 53))%Z at 1 by lia.
    rewrite Qpower2_ratio by lia.
    unfold Qeq, Qmult. cbn [Qnum Qden]. rewrite !Pos.mul_1_l. ring. }
  rewrite HF. apply Qabs_diff_bound.
  rewrite !Pos2Z.inj_mul, !(Z2Pos.id t) by lia.
  rewrite !(Z2Pos.id (2 ^ (- ea + 53))) by (apply Z.pow_pos_nonneg; lia).
  rewrite !Z.pow_add_r by lia.
  change (Zpos 9007199254740992) with (2 ^ 53)%Z.
  set (V := (Zpos m * 2 ^ (e - (ea - et - 53)))%Z) in *.
  replace (Zpos m * (2 ^ (e - (ea - et - 53)) * 2 ^ (- et)) * t
           - a * (2 ^ (- ea) * 2 ^ 53))%Z
    with (V * Zpos mt - Zpos ma * 2 ^ 53)%Z
    by (rewrite Hva, Hvt; unfold V; ring).
  assert (Habs : (Z.abs (V * Zpos mt - Zpos ma * 2 ^ 53) <= Zpos ma)%Z)
    by (apply Z.abs_le; exact Hb).
  rewrite Hva in Habs |- *.
  replace (a * (2 ^ (- ea) * 2 ^ 53 * t))%Z with (a * 2 ^ (- ea) * (t * 2 ^ 53))%Z
    by ring.
  apply Z.mul_le_mono_nonneg_r; [lia | exact Habs].
Qed.

Lemma Qsum_error_bound {A : Type} (f g b : A -> Q) (l : list A) :
  (forall x, In x l -> Qabs (f x - g x) <= b x) ->
  Qabs (Qsum (map f l) - Qsum (map g l)) <= Qsum (map b l).
Proof.
  induction l as [|x l IH]; intros H.
  - simpl. discriminate.
  - cbn [map Qsum fold_right].
    assert (E : f x + fold_right Qplus 0 (map f l)
                - (g x + fold_right Qplus 0 (map g l))
                == (f x - g x) + (Qsum (map f l) - Qsum (map g l)))
      by (unfold Qsum; ring).
    rewrite E.
    eapply Qle_trans; [apply Qabs_triangle|].
    apply Qplus_le_compat.
    + apply H. now left.
    + apply IH. intros y Hy. apply H. now right.
Qed.

Lemma rows_attempts_total (df : DataFrame) :
  df <> [] ->
  Zsum (map Attempts (rows (compute_metrics df))) = Z.of_nat (List.length df).
Proof.
  intros Hne.
  rewrite <- (Zsum_permutation _ _
                (Permutation_map Attempts (rows_permutation df Hne))).
  rewrite map_map. cbn [metrics_of Attempts].
  apply total_attempts_length.
Qed.

(** The Frequency cells of a log of fewer than [2^53] events add up to 1
    within [2^-53]. *)
Lemma frequency_cells_sum (df : DataFrame) :
  df <> [] -> (Z.of_nat (List.length df) < 2 ^ 53)%Z ->
  Qabs (Qsum (map (fun r => float_to_Q (Frequency r)) (rows (compute_metrics df)))
        - 1)
  <= 1 # 9007199254740992.
Proof.
  intros Hne Hlen.
  assert (Htot := rows_attempts_total df Hne).
  set (rs := rows (compute_metrics df)) in *.
  set (t := Z.of_nat (List.length df)) in *.
  assert (Hpos : (1 <= t)%Z).
  { unfold t. destruct df; [congruence | simpl List.length; lia]. }
  assert (H1 : Qsum (map (fun r => Attempts r # Z.to_pos t) rs) == 1).
  { rewrite <- (map_map Attempts (fun a => a # Z.to_pos t)).
    rewrite Qsum_same_denominator, Htot.
    unfold Qeq. simpl. rewrite Z2Pos.id by lia. ring. }
  assert (H2 : Qsum (map (fun r => Attempts r # (Z.to_pos t * 9007199254740992)) rs)
               == 1 # 9007199254740992).
  { rewrite <- (map_map Attempts (fun a => a # (Z.to_pos t * 9007199254740992))).
    rewrite Qsum_same_denominator, Htot.
    unfold Qeq. cbn [Qnum Qden]. rewrite Pos2Z.inj_mul, Z2Pos.id by lia. ring. }
  rewrite <- H1, <- H2.
  apply Qsum_error_bound.
  intros r Hr. apply rows_In in Hr. destruct Hr as (k & Hk & ->).
  cbn [metrics_of Frequency Attempts]. fold t.
  replace (t =? 0)%Z with false by (symmetry; apply Z.eqb_neq; lia).
  apply quotient_error; [|exact Hlen].
  split; [assert (H := attempts_of_pos df k Hk); lia|].
  apply attempts_of_le_length.
Qed.

Local Open Scope Z_scope.

(** * The examples of the specification, evaluated *)

Example strip_example :
  PyStr.strip "  Pick and Roll  " = "Pick and Roll"
  /\ PyStr.strip "   " = ""
  /\ PyStr.strip nbsp = ""
  /\ PyStr.strip (ideographic_space ++ " Horns" ++ nbsp ++ " ")%string = "Horns"
  /\ PyStr.strip ("Pick" ++ nbsp ++ "Roll")%string = ("Pick" ++ nbsp ++ "Roll")%string.
Proof. repeat split. Qed.

Example lower_ascii_example :
  PyStr.lower_ascii "Pick and Roll" = "pick and roll".
Proof. reflexivity. Qed.

Example date_str_example : date_str (mkDate 2024 3 7) = "2024-03-07".
Proof. reflexivity. Qed.

(** Adding "Pick and Roll" and then "pick and roll": the second is rejected
    as a duplicate and the registry keeps one entry. *)
Example add_play_duplicate_example :
  let a0 := mkApp (mkSession [] [] None "" (mkDate 2024 1 1) "" "Pick and Roll") [] in
  let a1 := add_play PyStr.lower_ascii a0 in
  let a2 := add_play PyStr.lower_ascii (mkApp (mkSession (plays (session a1)) [] None ""
                                       (mkDate 2024 1 1) "" "pick and roll")
                            (rendered a1)) in
  plays (session a1) = ["Pick and Roll"]
  /\ plays (session a2) = ["Pick and Roll"]
  /\ rendered a2 = [SidebarWarning "Play already exists."].
Proof. repeat split. Qed.

(** A no-break space alone is a blank name: nothing happens, whatever
    [str.lower] does. *)
Example add_play_nbsp_example (lower : string -> string) :
  add_play lower nbsp_input = nbsp_input.
Proof. reflexivity. Qed.

(** "École" after "école": a duplicate as soon as [str.lower] sends both to
    the same text, which Python's does. *)
Example add_play_Ecole_example (lower : string -> string) :
  lower Ecole = lower ecole ->
  session (add_play lower Ecole_input) = session Ecole_input
  /\ rendered (add_play lower Ecole_input)
     = [SidebarWarning "Play already exists."].
Proof.
  intros H. unfold add_play.
  change (PyStr.strip (new_play (session Ecole_input))) with Ecole.
  cbn [PyStr.truthy Ecole negb]. cbn [Ecole_input session plays map existsb].
  rewrite H, String.eqb_refl. split; reflexivity.
Qed.

(** Made 2, Made 2, Missed 3, Foul on one play: 4 attempts, 4 points,
    PPP 1.0, 2 made out of 3 shots. *)
Example one_play_example :
  rows (compute_metrics [tagged "A" "Made 2"; tagged "A" "Made 2";
                         tagged "A" "Missed 3"; tagged "A" "Foul"])
  = [mkRow "A" 4 4 1%float 1%float (PrimFloat.div 2 3)].
Proof. reflexivity. Qed.

(** Three attempts of A and one of B: frequencies 0.75 and 0.25. *)
Example two_plays_example :
  map (fun r => (Play r, Attempts r, Frequency r))
      (rows (compute_metrics [tagged "A" "Foul"; tagged "B" "Foul";
                              tagged "A" "Foul"; tagged "A" "Foul"]))
  = [("A", 3, 0.75%float); ("B", 1, 0.25%float)].
Proof. reflexivity. Qed.

(** A play that was never registered, and the empty play name, get rows. *)
Example unregistered_play_example :
  let a := add_log "2024-01-01 10:00:00" "" "Made 3"
             (add_log "2024-01-01 09:59:00" "Ghost" "Nope"
                (mkApp (init_state (mkDate 2024 1 1)) [])) in
  plays (session a) = []
  /\ map (fun r => (Play r, Attempts r, Points r))
         (rows (compute_metrics (log (session a))))
     = [("", 1, 3); ("Ghost", 1, 0)].
Proof. repeat split. Qed.

(** * The claims *)

(** C1. For a non-empty log and a play [p] that occurs in it, the table has
    exactly one row whose Play is [p]; its Attempts is the number of events
    tagged [p] (whatever their result), its Points the sum of their points,
    its PPP the quotient Points / Attempts, a number (not NaN) as long as
    the log has fewer than [2^53] events; and every row of the table has
    Attempts at least 1. *)
Theorem compute_metrics_attempts_points_ppp (df : DataFrame) (p : string) :
  df <> [] -> In p (map play df) ->
  (exists r,
      filter (fun r' => String.eqb (Play r') p) (rows (compute_metrics df)) = [r]
      /\ Attempts r = Z.of_nat (List.length (filter (fun e => String.eqb (play e) p) df))
      /\ Points r = Zsum (map points (filter (fun e => String.eqb (play e) p) df))
      /\ PPP r = PrimFloat.div (float_of_int (Points r)) (float_of_int (Attempts r))
      /\ 1 <= Attempts r
      /\ (Z.of_nat (List.length df) < 2 ^ 53 -> PrimFloat.is_nan (PPP r) = false))
  /\ (forall r, In r (rows (compute_metrics df)) -> 1 <= Attempts r).
Proof.
  intros _ Hp. split.
  - exists (metrics_of df p). split; [now apply row_of_play|].
    repeat split.
    + now apply attempts_of_pos.
    + intros Hlen. apply (rows_PPP_number df _ Hlen).
      apply rows_In. exists p. split; [exact Hp | reflexivity].
  - intros r Hr. apply rows_In in Hr. destruct Hr as (k & Hk & ->).
    now apply attempts_of_pos.
Qed.

Lemma compute_metrics_attempts_points_ppp_witness :
  (exists r,
      filter (fun r' => String.eqb (Play r') "Horns")
             (rows (compute_metrics horns_flex)) = [r]
      /\ Attempts r = 2 /\ Points r = 2 /\ PPP r = PrimFloat.one)
  /\ (forall r, In r (rows (compute_metrics horns_flex)) -> 1 <= Attempts r).
Proof.
  destruct (compute_metrics_attempts_points_ppp horns_flex "Horns")
    as [(r & Hf & Ha & Hp & Hq & _ & _) Hall].
  - discriminate.
  - simpl. auto.
  - split; [|exact Hall].
    exists r. rewrite Hq, Hp, Ha. repeat split. exact Hf.
Defined.

(** C2. For a play [p] that occurs in the log, the Success Rate of its row
    is (number of its Made 2 / Made 3 events) / (number of its Made 2 /
    Made 3 / Missed 2 / Missed 3 events), and it is 0.0 when that
    denominator is 0, as for a play tagged only with Foul. *)
Theorem compute_metrics_success_rate (df : DataFrame) (p : string) :
  In p (map play df) ->
  exists r,
    filter (fun r' => String.eqb (Play r') p) (rows (compute_metrics df)) = [r]
    /\ Success_Rate r
       = (if shots_of df p =? 0 then PrimFloat.zero
          else PrimFloat.div (float_of_int (made_of df p))
                             (float_of_int (shots_of df p)))
    /\ ((forall e, In e df -> play e = p -> result e = "Foul") ->
        Success_Rate r = PrimFloat.zero).
Proof.
  intros Hp. exists (metrics_of df p). split; [now apply row_of_play|].
  split; [reflexivity|].
  intros Hfoul. unfold metrics_of. cbn [Success_Rate].
  assert (E : shots_of df p = 0).
  { unfold shots_of, events_of. clear Hp.
    induction df as [|e df IH]; [reflexivity|]. simpl.
    destruct (String.eqb_spec (play e) p) as [Hep|Hep]; simpl.
    - rewrite (Hfoul e (or_introl eq_refl) Hep). simpl.
      apply IH. intros e' He'. apply Hfoul. now right.
    - apply IH. intros e' He'. apply Hfoul. now right. }
  now rewrite E.
Qed.

Lemma compute_metrics_success_rate_witness :
  (exists r,
     filter (fun r' => String.eqb (Play r') "Horns")
       (rows (compute_metrics [tagged "Horns" "Made 2"; tagged "Horns" "Made 2";
                               tagged "Horns" "Missed 3"; tagged "Horns" "Foul"])) = [r]
     /\ Success_Rate r = PrimFloat.div (float_of_int 2) (float_of_int 3))
  /\ (exists r,
     filter (fun r' => String.eqb (Play r') "Flex")
       (rows (compute_metrics [tagged "Flex" "Foul"; tagged "Horns" "Made 3"])) = [r]
     /\ Success_Rate r = PrimFloat.zero).
Proof.
  split.
  - destruct (compute_metrics_success_rate
                [tagged "Horns" "Made 2"; tagged "Horns" "Made 2";
                 tagged "Horns" "Missed 3"; tagged "Horns" "Foul"] "Horns")
      as (r & Hf & Hs & _); [simpl; auto|].
    exists r. split; [exact Hf | exact Hs].
  - destruct (compute_metrics_success_rate
                [tagged "Flex" "Foul"; tagged "Horns" "Made 3"] "Flex")
      as (r & Hf & Hs & _); [simpl; auto|].
    exists r. split; [exact Hf | exact Hs].
Defined.

(** C3. The rows come out in the order of [sort_values]: of two rows, the
    earlier one has the larger PPP (NaN last), or the same PPP and at least
    as many Attempts. For a log of fewer than [2^53] events no PPP is NaN,
    and in plain comparisons: the later row's PPP is less than or equal to
    the earlier row's, and when the two are equal the later row's Attempts
    is less than or equal to the earlier row's. *)
Theorem compute_metrics_sorted (df : DataFrame) (i j : nat) (a b : metrics_row) :
  (i < j)%nat ->
  nth_error (rows (compute_metrics df)) i = Some a ->
  nth_error (rows (compute_metrics df)) j = Some b ->
  row_le a b = true
  /\ (Z.of_nat (List.length df) < 2 ^ 53 ->
      PrimFloat.is_nan (PPP a) = false
      /\ PrimFloat.is_nan (PPP b) = false
      /\ PrimFloat.leb (PPP b) (PPP a) = true
      /\ (PrimFloat.eqb (PPP a) (PPP b) = true -> Attempts b <= Attempts a)).
Proof.
  intros Hij Ha Hb.
  assert (Hle : row_le a b = true).
  { exact (StronglySorted_nth _ _ (rows_sorted df) i j a b Hij Ha Hb). }
  split; [exact Hle|]. intros Hlen.
  assert (Na := rows_PPP_number df a Hlen (nth_error_In _ _ Ha)).
  assert (Nb := rows_PPP_number df b Hlen (nth_error_In _ _ Hb)).
  split; [exact Na | split; [exact Nb|]].
  apply is_nan_rank in Na, Nb. apply row_le_rank in Hle.
  split.
  - apply leb_rank. tauto.
  - intros He. apply eqb_rank in He.
    unfold rank_lt, rank_eq in *. lia.
Qed.

Lemma compute_metrics_sorted_witness :
  map Play (rows (compute_metrics tie_on_ppp)) = ["C"; "B"; "A"]
  /\ PrimFloat.leb (PPP (metrics_of tie_on_ppp "B"))
                   (PPP (metrics_of tie_on_ppp "C")) = true
  /\ Attempts (metrics_of tie_on_ppp "B") <= Attempts (metrics_of tie_on_ppp "C").
Proof.
  split; [reflexivity|].
  destruct (compute_metrics_sorted tie_on_ppp 0%nat 1%nat
              (metrics_of tie_on_ppp "C") (metrics_of tie_on_ppp "B"))
    as [_ H].
  - lia.
  - reflexivity.
  - reflexivity.
  - destruct H as (_ & _ & Hle & Htie); [simpl; lia|].
    split; [exact Hle | apply Htie; reflexivity].
Defined.

(** C4, as the code has it. For a non-empty log, every row's Frequency is
    the float64 quotient of its Attempts by the total of the Attempts
    column; that total is the number of events, at least 1, so the guard
    that would replace it by 1 never applies; the exact shares
    Attempts / total add up to 1; and the Frequency cells as stored, added
    up exactly, are within [2^-53] of 1 for every log of fewer than [2^53]
    events. *)
Theorem frequency_is_share_of_attempts (df : DataFrame) :
  df <> [] ->
  let rs := rows (compute_metrics df) in
  let total := Zsum (map Attempts rs) in
  (forall r, In r rs ->
     Frequency r
     = PrimFloat.div (float_of_int (Attempts r))
                     (float_of_int (if total =? 0 then 1 else total)))
  /\ total = Z.of_nat (List.length df)
  /\ 1 <= total
  /\ (Qsum (map (fun r => Attempts r # Z.to_pos total) rs) == 1)%Q
  /\ (total < 2 ^ 53 ->
      (Qabs (Qsum (map (fun r => float_to_Q (Frequency r)) rs) - 1)
       <= 1 # 9007199254740992)%Q).
Proof.
  intros Hne rs total.
  assert (Htot : total = Z.of_nat (List.length df))
    by apply (rows_attempts_total df Hne).
  assert (Hpos : 1 <= total).
  { rewrite Htot. destruct df; [congruence | simpl List.length; lia]. }
  split; [|split; [exact Htot | split; [exact Hpos|split]]].
  - intros r Hr. apply rows_In in Hr. destruct Hr as (k & _ & ->).
    rewrite Htot. reflexivity.
  - rewrite <- (map_map Attempts (fun a => a # Z.to_pos total)).
    rewrite Qsum_same_denominator. fold total.
    unfold Qeq. simpl. rewrite Z2Pos.id by lia. ring.
  - intros Hlen. apply (frequency_cells_sum df Hne). now rewrite <- Htot.
Qed.

Lemma frequency_is_share_of_attempts_witness :
  (forall r, In r (rows (compute_metrics
       [tagged "A" "Made 2"; tagged "A" "Foul"; tagged "A" "Made 3";
        tagged "B" "Missed 2"])) ->
     Frequency r = PrimFloat.div (float_of_int (Attempts r)) (float_of_int 4))
  /\ Zsum (map Attempts (rows (compute_metrics
       [tagged "A" "Made 2"; tagged "A" "Foul"; tagged "A" "Made 3";
        tagged "B" "Missed 2"]))) = 4
  /\ (Qabs (Qsum (map (fun r => float_to_Q (Frequency r))
                      (rows (compute_metrics
       [tagged "A" "Made 2"; tagged "A" "Foul"; tagged "A" "Made 3";
        tagged "B" "Missed 2"]))) - 1)
      <= 1 # 9007199254740992)%Q.
Proof.
  destruct (frequency_is_share_of_attempts
              [tagged "A" "Made 2"; tagged "A" "Foul"; tagged "A" "Made 3";
               tagged "B" "Missed 2"]) as (Hf & Ht & _ & _ & Hs).
  - discriminate.
  - split; [exact Hf | split; [exact Ht|]]. apply Hs. reflexivity.
Defined.

(** C4 as stated fails on [six_plays]: each Frequency is the float64
    nearest to 1/6, and the six cells add up to a number below 1, whether
    they are added exactly or in float64. *)
Lemma frequency_sum_below_one :
  Qeq_bool
    (Qsum (map (fun r => float_to_Q (Frequency r)) (rows (compute_metrics six_plays))))
    1 = false
  /\ Qred (Qsum (map (fun r => float_to_Q (Frequency r))
                     (rows (compute_metrics six_plays))))
     = (18014398509481983 # 18014398509481984)%Q
  /\ PrimFloat.eqb (fsum (map Frequency (rows (compute_metrics six_plays))))
                   PrimFloat.one = false
  /\ PrimFloat.ltb (fsum (map Frequency (rows (compute_metrics six_plays))))
                   PrimFloat.one = true.
Proof. vm_compute. repeat split. Qed.

(** C5. [add_log] appends exactly one event to the log, whatever the play,
    the result and the context are; the event carries the play, the result
    and the context, and its points are 2 for Made 2, 3 for Made 3, 0 for
    Missed 2, Missed 3 and Foul, and 0 for any other result. *)
Theorem add_log_appends_one_event (now p r : string) (a : app) :
  (exists e,
     log (session (add_log now p r a)) = log (session a) ++ [e]
     /\ play e = p /\ result e = r
     /\ timestamp e = now
     /\ ev_opponent e = opponent (session a)
     /\ ev_game_date e = date_str (game_date (session a))
     /\ ev_quarter e = quarter (session a)
     /\ points e = points_from_result r)
  /\ points_from_result "Made 2" = 2
  /\ points_from_result "Made 3" = 3
  /\ points_from_result "Missed 2" = 0
  /\ points_from_result "Missed 3" = 0
  /\ points_from_result "Foul" = 0
  /\ (r <> "Made 2" -> r <> "Made 3" -> r <> "Missed 2" -> r <> "Missed 3" ->
      r <> "Foul" -> points_from_result r = 0).
Proof.
  split.
  - eexists. split; [reflexivity|]. repeat split.
  - repeat split. intros H1 H2 H3 H4 H5.
    unfold points_from_result, result_points. cbn [dict_get].
    repeat match goal with
    | |- context [String.eqb ?k r] =>
        destruct (String.eqb_spec k r); [congruence|]
    end.
    reflexivity.
Qed.

(** C6, as the code has it. [add_play] trims the name, whitespace of any
    script included. An empty trimmed name is dropped silently: the whole
    state, registry and rendered messages included, stays as it was. A
    trimmed name that equals an existing entry up to case, that is, with
    the same image under [str.lower], leaves the session as it was and
    renders the sidebar warning "Play already exists.". Any other trimmed
    name is appended at the end of the registry, nothing is rendered, and
    the input field is cleared. This holds whatever function [lower] is, so
    for [str.lower] with its Unicode case tables too. *)
Theorem add_play_cases (lower : string -> string) (a : app) :
  let s := session a in
  let raw := PyStr.strip (new_play s) in
  (raw = "" -> add_play lower a = a)
  /\ (raw <> "" ->
      (exists q, In q (plays s) /\ lower q = lower raw) ->
      session (add_play lower a) = s
      /\ rendered (add_play lower a)
         = rendered a ++ [SidebarWarning "Play already exists."])
  /\ (raw <> "" ->
      (forall q, In q (plays s) -> lower q <> lower raw) ->
      plays (session (add_play lower a)) = plays s ++ [raw]
      /\ log (session (add_play lower a)) = log s
      /\ new_play (session (add_play lower a)) = ""
      /\ rendered (add_play lower a) = rendered a).
Proof.
  intros s raw. unfold add_play. fold s. fold raw.
  destruct (existsb (String.eqb (lower raw)) (map lower (plays s)))
    eqn:Edup.
  - apply existsb_exists in Edup. destruct Edup as (x & Hx & Hxe).
    apply String.eqb_eq in Hxe. apply in_map_iff in Hx.
    destruct Hx as (q & Hq & Hin).
    split; [|split].
    + intros ->. reflexivity.
    + intros Hne _. destruct raw; [congruence|]. split; reflexivity.
    + intros _ Hnone. exfalso. apply (Hnone q Hin). congruence.
  - split; [|split].
    + intros ->. reflexivity.
    + intros _ (q & Hin & Hq). exfalso.
      assert (E : existsb (String.eqb (lower raw))
                    (map lower (plays s)) = true).
      { apply existsb_exists. exists (lower q).
        split; [now apply in_map|]. apply String.eqb_eq. congruence. }
      congruence.
    + intros Hne _. destruct raw; [congruence|]. repeat split.
Qed.

(** C6 as stated fails on a blank name: the rejection is a no-op, but no
    warning is rendered for it. *)
Lemma add_play_blank_not_reported :
  PyStr.strip (new_play (session blank_input)) = ""
  /\ plays (session (add_play PyStr.lower_ascii blank_input)) = ["Horns"]
  /\ rendered (add_play PyStr.lower_ascii blank_input) = rendered blank_input
  /\ rendered (add_play PyStr.lower_ascii blank_input) = [].
Proof. repeat split. Qed.

(** C7. On an empty log [compute_metrics] returns the frame with the six
    columns Play, Attempts, Points, PPP, Frequency, Success Rate, in that
    order, and no row; the call on a store allocates that frame and returns
    it. The columns are the same six for every log. *)
Theorem compute_metrics_empty_log :
  compute_metrics []
  = mkFrame ["Play"; "Attempts"; "Points"; "PPP"; "Frequency"; "Success Rate"] []
  /\ (forall h log_df,
        nth_error h log_df = Some (LogFrame []) ->
        exists r h',
          compute_metrics_call log_df h = (r, h')
          /\ nth_error h' r
             = Some (MetricsFrame
                 (mkFrame ["Play"; "Attempts"; "Points"; "PPP"; "Frequency";
                           "Success Rate"] [])))
  /\ (forall df,
        columns (compute_metrics df)
        = ["Play"; "Attempts"; "Points"; "PPP"; "Frequency"; "Success Rate"]).
Proof.
  split; [reflexivity|]. split.
  - intros h log_df Hlog.
    rewrite (compute_metrics_call_run h log_df [] Hlog). cbn [empty].
    eexists. eexists. split; [reflexivity|]. apply nth_error_new.
  - intros df. rewrite compute_metrics_eq. destruct df; reflexivity.
Qed.

(** C8. The reset handler empties the log and leaves the registry of plays
    as it was, in the same order; the metrics of the cleared log have no
    row. *)
Theorem reset_game_clears_log_only (a : app) :
  log (session (reset_game a)) = []
  /\ plays (session (reset_game a)) = plays (session a)
  /\ rows (compute_metrics (log (session (reset_game a)))) = [].
Proof. repeat split. Qed.

(** C9. [add_log] accepts every play string, registered or not, the empty
    string included: the event it appends carries that string, the registry
    is not consulted or changed, and the metrics computed afterwards have a
    row for it. *)
Theorem add_log_accepts_any_play (now p r : string) (a : app) :
  let a' := add_log now p r a in
  (exists e, log (session a') = log (session a) ++ [e] /\ play e = p)
  /\ plays (session a') = plays (session a)
  /\ (exists row,
        filter (fun r' => String.eqb (Play r') p)
               (rows (compute_metrics (log (session a')))) = [row]
        /\ Play row = p).
Proof.
  intros a'. split; [|split].
  - eexists. split; reflexivity.
  - reflexivity.
  - exists (metrics_of (log (session a')) p). split; [|reflexivity].
    apply row_of_play. unfold a', add_log. cbn [session log].
    rewrite map_app, in_app_iff. right. simpl. auto.
Qed.

(** C10. The call [compute_metrics(log_df)] leaves every object the store
    held before it, the caller's log frame among them, as it was; the table
    it returns is a function of the log's contents alone, and within them of
    the play, result and points columns only: two logs that agree on these
    (whatever their timestamps) give the same table. *)
Theorem compute_metrics_deterministic_read_only
    (h : heap) (log_df : ref) (df : DataFrame) :
  nth_error h log_df = Some (LogFrame df) ->
  exists r h',
    compute_metrics_call log_df h = (r, h')
    /\ nth_error h' log_df = Some (LogFrame df)
    /\ (forall i o, nth_error h i = Some o -> nth_error h' i = Some o)
    /\ nth_error h' r = Some (MetricsFrame (compute_metrics df))
    /\ (forall df', map read_columns df' = map read_columns df ->
                    compute_metrics df' = compute_metrics df).
Proof.
  intros Hlog. rewrite (compute_metrics_call_run h log_df df Hlog).
  destruct (empty df) eqn:E; eexists; eexists; (split; [reflexivity|]).
  - split; [now apply nth_error_old|].
    split; [intros i o; apply nth_error_old|].
    split; [rewrite compute_metrics_eq, E; apply nth_error_new|].
    intros df'. apply same_read_compute_metrics.
  - split; [now apply nth_error_old|].
    split; [intros i o; apply nth_error_old|].
    split.
    + rewrite compute_metrics_eq, E.
      change (h ++ [MetricsFrame (unsorted_metrics df);
                    MetricsFrame (sort_values (unsorted_metrics df))])
        with (h ++ [MetricsFrame (unsorted_metrics df)]
                ++ [MetricsFrame (sort_values (unsorted_metrics df))]).
      rewrite app_assoc.
      replace (S (List.length h))
        with (List.length (h ++ [MetricsFrame (unsorted_metrics df)]))
        by (rewrite length_app; simpl; lia).
      apply nth_error_new.
    + intros df'. apply same_read_compute_metrics.
Qed.

Lemma compute_metrics_deterministic_read_only_witness :
  exists r h',
    compute_metrics_call 0%nat
      [LogFrame [mkEvent "2024-01-01 10:00:00" "Opp" "2024-01-01" "1" "Horns" "Made 2" 2]]
    = (r, h')
    /\ nth_error h' 0%nat
       = Some (LogFrame [mkEvent "2024-01-01 10:00:00" "Opp" "2024-01-01" "1" "Horns" "Made 2" 2])
    /\ compute_metrics [mkEvent "2024-02-02 20:30:00" "Other" "2024-02-02" "4" "Horns" "Made 2" 2]
       = compute_metrics [mkEvent "2024-01-01 10:00:00" "Opp" "2024-01-01" "1" "Horns" "Made 2" 2].
Proof.
  destruct (compute_metrics_deterministic_read_only
              [LogFrame [mkEvent "2024-01-01 10:00:00" "Opp" "2024-01-01" "1" "Horns" "Made 2" 2]]
              0%nat
              [mkEvent "2024-01-01 10:00:00" "Opp" "2024-01-01" "1" "Horns" "Made 2" 2]
              eq_refl) as (r & h' & H1 & H2 & _ & _ & H5).
  exists r, h'. split; [exact H1|]. split; [exact H2|].
  apply H5. reflexivity.
Defined.

(** * Further properties of the code *)

(** ** Trimming *)

Section DropSpace.

Variable w1 : ascii -> bool.
Variable w2 : ascii -> ascii -> bool.
Variable w3 : ascii -> ascii -> ascii -> bool.

Lemma drop_space_suffix_le (n : nat) :
  forall l, (List.length l <= n)%nat ->
  exists p, l = p ++ PyStr.drop_space w1 w2 w3 l.
Proof.
  induction n as [|n IH]; intros l Hl.
  - destruct l; [now exists []|simpl in Hl; lia].
  - destruct l as [|c1 l1]; [now exists []|]. simpl in Hl. simpl.
    destruct (w1 c1).
    { destruct (IH l1) as (p & E); [lia|]. exists (c1 :: p). simpl. now f_equal. }
    destruct l1 as [|c2 l2]; [now exists []|]. simpl in Hl.
    destruct (w2 c1 c2).
    { destruct (IH l2) as (p & E); [lia|]. exists (c1 :: c2 :: p). simpl. now do 2 f_equal. }
    destruct l2 as [|c3 l3]; [now exists []|]. simpl in Hl.
    destruct (w3 c1 c2 c3).
    { destruct (IH l3) as (p & E); [lia|]. exists (c1 :: c2 :: c3 :: p). simpl. now do 3 f_equal. }
    now exists [].
Qed.

Lemma drop_space_suffix (l : list ascii) :
  exists p, l = p ++ PyStr.drop_space w1 w2 w3 l.
Proof. apply (drop_space_suffix_le (List.length l)). lia. Qed.

Lemma drop_space_again_le (n : nat) :
  forall l, (List.length l <= n)%nat ->
  PyStr.drop_space w1 w2 w3 (PyStr.drop_space w1 w2 w3 l)
  = PyStr.drop_space w1 w2 w3 l.
Proof.
  induction n as [|n IH]; intros l Hl.
  - destruct l; [reflexivity|simpl in Hl; lia].
  - destruct l as [|c1 l1]; [reflexivity|]. simpl in Hl.
    cbn [PyStr.drop_space].
    destruct (w1 c1) eqn:E1; [apply IH; lia|].
    destruct l1 as [|c2 l2].
    { cbn [PyStr.drop_space]. now rewrite E1. }
    simpl in Hl.
    destruct (w2 c1 c2) eqn:E2; [apply IH; lia|].
    destruct l2 as [|c3 l3].
    { cbn [PyStr.drop_space]. now rewrite E1, E2. }
    simpl in Hl.
    destruct (w3 c1 c2 c3) eqn:E3; [apply IH; lia|].
    cbn [PyStr.drop_space]. now rewrite E1, E2, E3.
Qed.

Lemma drop_space_again (l : list ascii) :
  PyStr.drop_space w1 w2 w3 (PyStr.drop_space w1 w2 w3 l)
  = PyStr.drop_space w1 w2 w3 l.
Proof. apply (drop_space_again_le (List.length l)). lia. Qed.

(** Text that does not start with whitespace still does not once its end
    is cut off. *)
Lemma drop_space_prefix (u v : list ascii) :
  PyStr.drop_space w1 w2 w3 (u ++ v) = u ++ v ->
  PyStr.drop_space w1 w2 w3 u = u.
Proof.
  intros H.
  assert (Hlen : forall l, (List.length (PyStr.drop_space w1 w2 w3 l)
                            <= List.length l)%nat).
  { intros l. destruct (drop_space_suffix l) as (p & E).
    rewrite E at 2. rewrite length_app. lia. }
  destruct u as [|c1 u1]; [reflexivity|].
  cbn [PyStr.drop_space List.app] in *.
  destruct (w1 c1).
  { exfalso. assert (L := Hlen (u1 ++ v)). rewrite H in L. simpl in L. lia. }
  destruct u1 as [|c2 u2]; [reflexivity|].
  cbn [List.app] in H.
  destruct (w2 c1 c2).
  { exfalso. assert (L := Hlen (u2 ++ v)). rewrite H in L. simpl in L. lia. }
  destruct u2 as [|c3 u3]; [reflexivity|].
  cbn [List.app] in H.
  destruct (w3 c1 c2 c3); [|reflexivity].
  exfalso. assert (L := Hlen (u3 ++ v)). rewrite H in L. simpl in L. lia.
Qed.

End DropSpace.

Lemma rstrip_bytes_prefix (l : list ascii) :
  exists p, l = PyStr.rstrip_bytes l ++ p.
Proof.
  unfold PyStr.rstrip_bytes.
  destruct (drop_space_suffix PyStr.isspace (fun c1 c2 => PyStr.isspace2 c2 c1)
              (fun c1 c2 c3 => PyStr.isspace3 c3 c2 c1) (rev l)) as (p & E).
  exists (rev p). rewrite <- rev_app_distr, <- E. symmetry. apply rev_involutive.
Qed.

Lemma rstrip_bytes_again (l : list ascii) :
  PyStr.rstrip_bytes (PyStr.rstrip_bytes l) = PyStr.rstrip_bytes l.
Proof.
  unfold PyStr.rstrip_bytes. rewrite rev_involutive. now rewrite drop_space_again.
Qed.

Lemma strip_bytes_again (l : list ascii) :
  PyStr.rstrip_bytes (PyStr.lstrip_bytes (PyStr.rstrip_bytes (PyStr.lstrip_bytes l)))
  = PyStr.rstrip_bytes (PyStr.lstrip_bytes l).
Proof.
  set (t := PyStr.lstrip_bytes l).
  assert (Ht : PyStr.lstrip_bytes t = t) by apply drop_space_again.
  destruct (rstrip_bytes_prefix t) as (p & E).
  assert (Hu : PyStr.lstrip_bytes (PyStr.rstrip_bytes t) = PyStr.rstrip_bytes t).
  { apply (drop_space_prefix _ _ _ _ p). fold (PyStr.lstrip_bytes (PyStr.rstrip_bytes t ++ p)).
    now rewrite <- E. }
  rewrite Hu. apply rstrip_bytes_again.
Qed.

Lemma strip_idempotent (s : string) :
  PyStr.strip (PyStr.strip s) = PyStr.strip s.
Proof.
  unfold PyStr.strip. rewrite list_ascii_of_string_of_list_ascii.
  now rewrite strip_bytes_again.
Qed.

(** ** [safe_filename] *)

Lemma filename_char_plain (c : ascii) :
  PyStrMore.filename_char c = true ->
  PyStr.isspace c = false /\ Ascii.eqb c " " = false
  /\ (nat_of_ascii c < 128)%nat.
Proof.
  destruct c as [[] [] [] [] [] [] [] []]; vm_compute; intros H;
    first [discriminate H | repeat split; lia].
Qed.

Lemma filename_char_starts_no_space (c1 c2 c3 : ascii) :
  PyStrMore.filename_char c1 = true ->
  PyStr.isspace2 c1 c2 = false /\ PyStr.isspace3 c1 c2 c3 = false.
Proof.
  intros H. destruct (filename_char_plain c1 H) as (_ & _ & Hn).
  unfold PyStr.isspace2, PyStr.isspace3. cbv zeta.
  destruct (Nat.eqb_spec (nat_of_ascii c1) 194); [lia|].
  destruct (Nat.eqb_spec (nat_of_ascii c1) 225); [lia|].
  destruct (Nat.eqb_spec (nat_of_ascii c1) 226); [lia|].
  destruct (Nat.eqb_spec (nat_of_ascii c1) 227); [lia|].
  split; reflexivity.
Qed.

Lemma filename_char_ends_no_space (c1 c2 c3 : ascii) :
  PyStrMore.filename_char c3 = true ->
  PyStr.isspace2 c2 c3 = false /\ PyStr.isspace3 c1 c2 c3 = false.
Proof.
  intros H. destruct (filename_char_plain c3 H) as (_ & _ & Hn).
  unfold PyStr.isspace2, PyStr.isspace3. cbv zeta.
  destruct (Nat.eqb_spec (nat_of_ascii c3) 133); [lia|].
  destruct (Nat.eqb_spec (nat_of_ascii c3) 160); [lia|].
  destruct (Nat.eqb_spec (nat_of_ascii c3) 128); [lia|].
  destruct (Nat.eqb_spec (nat_of_ascii c3) 168); [lia|].
  destruct (Nat.eqb_spec (nat_of_ascii c3) 169); [lia|].
  destruct (Nat.eqb_spec (nat_of_ascii c3) 175); [lia|].
  destruct (Nat.eqb_spec (nat_of_ascii c3) 159); [lia|].
  destruct (Nat.leb_spec 128 (nat_of_ascii c3)); [lia|].
  cbn [andb orb]. rewrite !andb_false_r. split; reflexivity.
Qed.

Lemma all_chars_forallb (ok : ascii -> bool) (s : string) :
  PyStrMore.all_chars ok s = forallb ok (list_ascii_of_string s).
Proof. induction s as [|c s IH]; simpl; [reflexivity|now rewrite IH]. Qed.

Lemma lstrip_bytes_clean (l : list ascii) :
  forallb PyStrMore.filename_char l = true -> PyStr.lstrip_bytes l = l.
Proof.
  destruct l as [|c1 l1]; [reflexivity|]. intros H. simpl in H.
  apply andb_true_iff in H. destruct H as [H1 _].
  unfold PyStr.lstrip_bytes. cbn [PyStr.drop_space].
  destruct (filename_char_plain c1 H1) as (-> & _).
  destruct l1 as [|c2 l2]; [reflexivity|].
  destruct (filename_char_starts_no_space c1 c2 c2 H1) as [-> _].
  destruct l2 as [|c3 l3]; [reflexivity|].
  now destruct (filename_char_starts_no_space c1 c2 c3 H1) as [_ ->].
Qed.

Lemma rstrip_bytes_clean (l : list ascii) :
  forallb PyStrMore.filename_char l = true -> PyStr.rstrip_bytes l = l.
Proof.
  intros H. unfold PyStr.rstrip_bytes.
  assert (Hr : forallb PyStrMore.filename_char (rev l) = true).
  { apply forallb_forall. intros c Hc. apply in_rev in Hc.
    now apply (proj1 (forallb_forall _ _) H). }
  rewrite <- (rev_involutive l) at 2. f_equal.
  destruct (rev l) as [|c1 l1]; [reflexivity|]. simpl in Hr.
  apply andb_true_iff in Hr. destruct Hr as [H1 _].
  cbn [PyStr.drop_space].
  destruct (filename_char_plain c1 H1) as (-> & _).
  destruct l1 as [|c2 l2]; [reflexivity|].
  destruct (filename_char_ends_no_space c2 c2 c1 H1) as [-> _].
  destruct l2 as [|c3 l3]; [reflexivity|].
  now destruct (filename_char_ends_no_space c3 c2 c1 H1) as [_ ->].
Qed.

Lemma strip_clean (s : string) :
  PyStrMore.all_chars PyStrMore.filename_char s = true -> PyStr.strip s = s.
Proof.
  intros H. rewrite all_chars_forallb in H. unfold PyStr.strip.
  rewrite (lstrip_bytes_clean _ H), (rstrip_bytes_clean _ H).
  apply string_of_list_ascii_of_string.
Qed.

Lemma keep_chars_all (keep : ascii -> bool) (s : string) :
  PyStrMore.all_chars keep (PyStrMore.keep_chars keep s) = true.
Proof.
  induction s as [|c s IH]; simpl; [reflexivity|].
  destruct (keep c) eqn:E; simpl; [now rewrite E|exact IH].
Qed.

Lemma keep_chars_fixed (keep : ascii -> bool) (s : string) :
  PyStrMore.all_chars keep s = true -> PyStrMore.keep_chars keep s = s.
Proof.
  induction s as [|c s IH]; simpl; [reflexivity|].
  intros H. apply andb_true_iff in H. destruct H as [Hc Hs].
  now rewrite Hc, (IH Hs).
Qed.

Lemma replace_spaces_fixed (s : string) :
  PyStrMore.all_chars PyStrMore.filename_char s = true ->
  PyStrMore.replace_spaces s = s.
Proof.
  induction s as [|c s IH]; simpl; [reflexivity|].
  intros H. apply andb_true_iff in H. destruct H as [Hc Hs].
  destruct (filename_char_plain c Hc) as (_ & E & _). now rewrite E, (IH Hs).
Qed.

Lemma safe_filename_of_clean (s : string) :
  PyStrMore.all_chars PyStrMore.filename_char s = true ->
  safe_filename s = s.
Proof.
  intros H. unfold safe_filename. rewrite (strip_clean s H).
  rewrite (replace_spaces_fixed s H). now apply keep_chars_fixed.
Qed.

(** X1. Whatever the input, in whatever script, [safe_filename] returns
    only ASCII letters, digits, underscores, hyphens and dots; applying it
    to its own result changes nothing; and a name that consists of such
    characters only is returned as it is. *)
Theorem safe_filename_clean_idempotent (s : string) :
  PyStrMore.all_chars PyStrMore.filename_char (safe_filename s) = true
  /\ safe_filename (safe_filename s) = safe_filename s
  /\ (PyStrMore.all_chars PyStrMore.filename_char s = true -> safe_filename s = s).
Proof.
  assert (H : PyStrMore.all_chars PyStrMore.filename_char (safe_filename s) = true)
    by apply keep_chars_all.
  split; [exact H|]. split.
  - now apply safe_filename_of_clean.
  - apply safe_filename_of_clean.
Qed.

Example safe_filename_example :
  safe_filename "  vs. L.A. Lakers (home)! " = "vs._L.A._Lakers_home"
  /\ safe_filename ("a " ++ nbsp)%string = "a"
  /\ safe_filename (ideographic_space ++ "a b" ++ nbsp ++ "c ")%string = "a_bc"
  /\ safe_filename Ecole = "cole".
Proof. repeat split. Qed.

(** ** [init_state] *)

(** X2. [init_state] never overwrites: a key the session already holds
    keeps its value, every key is present afterwards, and a second run,
    even on another day, changes nothing. On a session without keys it
    gives the initial state. *)
Theorem init_state_keeps_existing (today later : date) (k : session_keys) :
  (forall v, k_plays k = Some v -> k_plays (init_state_keys today k) = Some v)
  /\ (forall v, k_log k = Some v -> k_log (init_state_keys today k) = Some v)
  /\ (forall v, k_selected_play k = Some v ->
                k_selected_play (init_state_keys today k) = Some v)
  /\ (forall v, k_opponent k = Some v -> k_opponent (init_state_keys today k) = Some v)
  /\ (forall v, k_game_date k = Some v -> k_game_date (init_state_keys today k) = Some v)
  /\ (forall v, k_quarter k = Some v -> k_quarter (init_state_keys today k) = Some v)
  /\ (forall v, k_new_play k = Some v -> k_new_play (init_state_keys today k) = Some v)
  /\ (exists s, init_state_keys today k = keys_of s)
  /\ init_state_keys later (init_state_keys today k) = init_state_keys today k
  /\ init_state_keys today no_keys = keys_of (init_state today).
Proof.
  destruct k as [[p|] [l|] [sp|] [o|] [d|] [q|] [n|]];
    unfold init_state_keys; cbn;
    repeat (split; [intros v H; first [exact H | discriminate H]|]);
    (split; [eexists (mkSession _ _ _ _ _ _ _); reflexivity|]);
    split; reflexivity.
Qed.

(** ** The game setup *)

Lemma quarter_index_cases (q : string) :
  (q = "" /\ quarter_index q = 0%nat)
  \/ (q = "1" /\ quarter_index q = 1%nat)
  \/ (q = "2" /\ quarter_index q = 2%nat)
  \/ (q = "3" /\ quarter_index q = 3%nat)
  \/ (q = "4" /\ quarter_index q = 4%nat)
  \/ (q = "OT" /\ quarter_index q = 5%nat)
  \/ (~ In q quarter_options /\ quarter_index q = 0%nat).
Proof.
  unfold quarter_index, isin, quarter_options. cbn [existsb list_index In].
  rewrite !(String.eqb_sym q).
  repeat match goal with
  | |- context [String.eqb ?k q] =>
      destruct (String.eqb_spec k q) as [<-|?]; [cbn; tauto|]
  end.
  cbn. repeat right. split; [|reflexivity]. intuition congruence.
Qed.

(** X3. The index preselected in the quarter selectbox always points into
    the options: it is the position of the stored quarter when that is one
    of the options, and 0, the blank option, for any other stored value. *)
Theorem quarter_index_in_options (q : string) :
  (quarter_index q < List.length quarter_options)%nat
  /\ (In q quarter_options -> nth_error quarter_options (quarter_index q) = Some q)
  /\ (~ In q quarter_options -> nth_error quarter_options (quarter_index q) = Some "").
Proof.
  destruct (quarter_index_cases q)
    as [[-> E]|[[-> E]|[[-> E]|[[-> E]|[[-> E]|[[-> E]|[Hn E]]]]]]];
    rewrite E; (split; [cbn; lia|]); split; intros H;
    first [reflexivity | contradiction | exfalso; apply H; cbn; tauto].
Qed.

(** ** Runs: what the handlers keep *)

Lemma truthy_false (s : string) : PyStr.truthy s = false <-> s = "".
Proof. destruct s; split; intro H; try reflexivity; discriminate. Qed.

Lemma existsb_lower_In (lower : string -> string)
    (x : string) (names : list string) :
  existsb (String.eqb x) (map lower names) = true
  <-> In x (map lower names).
Proof.
  rewrite existsb_exists. split.
  - intros (y & Hy & E). apply String.eqb_eq in E. now subst.
  - intros H. exists x. split; [exact H | apply String.eqb_refl].
Qed.

(** The three outcomes of [add_play] on the registry. *)
Lemma add_play_plays (lower : string -> string) (a : app) :
  let raw := PyStr.strip (new_play (session a)) in
  (plays (session (add_play lower a)) = plays (session a)
   /\ (raw = "" \/ In (lower raw) (map lower (plays (session a)))))
  \/ (plays (session (add_play lower a)) = plays (session a) ++ [raw]
      /\ raw <> ""
      /\ ~ In (lower raw) (map lower (plays (session a)))).
Proof.
  intros raw. unfold add_play. fold raw.
  destruct (PyStr.truthy raw) eqn:Et; cbn [negb].
  - destruct (existsb _ _) eqn:Ed.
    + left. split; [reflexivity|]. right. now apply existsb_lower_In.
    + right. split; [reflexivity|]. split.
      * intros ->. discriminate.
      * intros H. apply existsb_lower_In in H. congruence.
  - left. split; [reflexivity|]. left. now apply truthy_false.
Qed.

Lemma add_play_registry_ok (lower : string -> string) (a : app) :
  registry_ok lower (plays (session a)) ->
  registry_ok lower (plays (session (add_play lower a))).
Proof.
  intros [Hnd Hall].
  destruct (add_play_plays lower a) as [[E _]|(E & Hne & Hnew)]; rewrite E.
  - now split.
  - split.
    + rewrite map_app. cbn [map].
      apply (Permutation_NoDup (Permutation_cons_append _ _)).
      now constructor.
    + intros n Hn. apply in_app_or in Hn. destruct Hn as [Hn|[<-|[]]].
      * now apply Hall.
      * split; [exact Hne | apply strip_idempotent].
Qed.

Lemma step_plays (lower : string -> string) (act : action) (a : app) :
  act <> ClickAddPlay -> plays (session (step lower act a)) = plays (session a).
Proof. destruct act; intros H; try reflexivity. congruence. Qed.

Lemma step_registry_ok (lower : string -> string) (act : action) (a : app) :
  registry_ok lower (plays (session a)) ->
  registry_ok lower (plays (session (step lower act a))).
Proof.
  intros H. destruct act; try exact H. now apply add_play_registry_ok.
Qed.

Lemma run_invariant (lower : string -> string) (P : app -> Prop) :
  (forall act a, P a -> P (step lower act a)) ->
  forall acts a, P a -> P (run lower acts a).
Proof.
  intros Hstep acts. unfold run.
  induction acts as [|act acts IH]; intros a Ha; simpl; [exact Ha|].
  apply IH, Hstep, Ha.
Qed.

(** X4. Whatever the user does, in whatever order, the registry of plays
    stays clean: no two names have the same image under [str.lower], no
    name is empty, and no name carries whitespace at its ends (a name is
    what [str.strip] makes of it). [lower] is any function, so this holds
    for [str.lower] with its Unicode case tables. *)
Theorem registry_stays_clean (lower : string -> string)
    (today : date) (acts : list action) :
  let names := plays (session (run lower acts (initial_app today))) in
  NoDup (map lower names)
  /\ (forall n, In n names -> n <> "" /\ PyStr.strip n = n).
Proof.
  apply (run_invariant lower (fun a => registry_ok lower (plays (session a)))).
  - intros act a. apply step_registry_ok.
  - split; [constructor | intros n []].
Qed.

Lemma step_plays_grow (lower : string -> string) (act : action) (a : app) :
  exists more, plays (session (step lower act a)) = plays (session a) ++ more.
Proof.
  destruct act; try (exists []; simpl; now rewrite app_nil_r).
  destruct (add_play_plays lower a) as [[E _]|(E & _)]; cbn [step]; rewrite E.
  - exists []. now rewrite app_nil_r.
  - now eexists.
Qed.

(** X5. No action removes or reorders a play: after any run the registry
    is the registry before it, followed by the names added since. *)
Theorem registry_only_grows (lower : string -> string)
    (acts : list action) (a : app) :
  exists more, plays (session (run lower acts a)) = plays (session a) ++ more.
Proof.
  revert a. unfold run. induction acts as [|act acts IH]; intros a; simpl.
  - exists []. now rewrite app_nil_r.
  - destruct (IH (step lower act a)) as (m2 & E2).
    destruct (step_plays_grow lower act a) as (m1 & E1).
    exists (m1 ++ m2). now rewrite E2, E1, app_assoc.
Qed.

(** X6. Submitting a name a second time, in any capitalisation and with any
    surrounding whitespace, never changes the registry: if the second text,
    trimmed, has the same image under [str.lower] as the first (and is
    blank if the first was), the registry after it is the registry after
    the first. [lower] is any function. *)
Theorem add_play_twice (lower : string -> string) (n n' : string) (a : app) :
  lower (PyStr.strip n') = lower (PyStr.strip n) ->
  (PyStr.strip n = "" -> PyStr.strip n' = "") ->
  plays (session (add_play lower (set_new_play n' (add_play lower (set_new_play n a)))))
  = plays (session (add_play lower (set_new_play n a))).
Proof.
  intros Hsame Hblank.
  set (a1 := add_play lower (set_new_play n a)).
  destruct (add_play_plays lower (set_new_play n' a1)) as [[E _]|(E & Hne & Hnew)];
    [exact E|].
  exfalso. cbn [set_new_play session new_play plays] in Hnew, Hne.
  rewrite Hsame in Hnew. apply Hnew.
  destruct (add_play_plays lower (set_new_play n a)) as [[E1 [He|Hin]]|(E1 & _ & _)];
    cbn [set_new_play session new_play plays] in *; fold a1 in E1; rewrite E1.
  - exfalso. apply Hne. apply Hblank, He.
  - exact Hin.
  - rewrite map_app, in_app_iff. right. now left.
Qed.

Lemma add_play_twice_witness :
  plays (session (add_play PyStr.lower_ascii (set_new_play (nbsp ++ " pick and ROLL ")%string
           (add_play PyStr.lower_ascii
              (set_new_play "Pick and Roll" (initial_app (mkDate 2024 1 1)))))))
  = ["Pick and Roll"].
Proof.
  rewrite (add_play_twice PyStr.lower_ascii "Pick and Roll"
             (nbsp ++ " pick and ROLL ")%string).
  - reflexivity.
  - reflexivity.
  - intros H. discriminate H.
Defined.

Lemma add_play_setup (lower : string -> string) (a : app) :
  opponent (session (add_play lower a)) = opponent (session a)
  /\ game_date (session (add_play lower a)) = game_date (session a)
  /\ quarter (session (add_play lower a)) = quarter (session a).
Proof.
  unfold add_play.
  destruct (negb (PyStr.truthy (PyStr.strip (new_play (session a)))));
    [repeat split|].
  destruct (existsb _ _); repeat split.
Qed.

(** X7. The game setup changes only through its three sidebar widgets: a
    run made of typing names, adding plays, tagging and resetting leaves
    opponent, date and quarter as they were, so a page that was ready to
    tag stays ready (and the reset does not send the user back to the
    setup). *)
Theorem setup_changes_only_in_sidebar (lower : string -> string)
    (acts : list action) (a : app) :
  forallb (fun act => negb (is_setup act)) acts = true ->
  opponent (session (run lower acts a)) = opponent (session a)
  /\ game_date (session (run lower acts a)) = game_date (session a)
  /\ quarter (session (run lower acts a)) = quarter (session a)
  /\ ready_to_tag (session (run lower acts a)) = ready_to_tag (session a).
Proof.
  revert a. unfold run.
  induction acts as [|act acts IH]; intros a H; simpl; [repeat split|].
  simpl in H. apply andb_true_iff in H. destruct H as [Hact Hacts].
  destruct (IH (step lower act a) Hacts) as (Ho & Hd & Hq & Hr).
  assert (Hs : opponent (session (step lower act a)) = opponent (session a)
               /\ game_date (session (step lower act a)) = game_date (session a)
               /\ quarter (session (step lower act a)) = quarter (session a)).
  { destruct act; try discriminate Hact; try apply add_play_setup;
      repeat split. }
  destruct Hs as (Ho' & Hd' & Hq').
  rewrite Ho, Hd, Hq, Hr. unfold ready_to_tag. rewrite Ho', Hq'. repeat split; assumption.
Qed.

Lemma setup_changes_only_in_sidebar_witness :
  ready_to_tag (session (run PyStr.lower_ascii [TypeNewPlay "Horns"; ClickAddPlay;
                              Tag "2024-01-01 10:00:00" "Horns" "Made 2"; ClickReset]
                             (run PyStr.lower_ascii [SetOpponent "Lakers"; SelectQuarter 1]
                                  (initial_app (mkDate 2024 1 1)))))
  = true.
Proof.
  destruct (setup_changes_only_in_sidebar PyStr.lower_ascii
              [TypeNewPlay "Horns"; ClickAddPlay;
               Tag "2024-01-01 10:00:00" "Horns" "Made 2"; ClickReset]
              (run PyStr.lower_ascii [SetOpponent "Lakers"; SelectQuarter 1]
                   (initial_app (mkDate 2024 1 1))) eq_refl) as (_ & _ & _ & H).
  rewrite H. reflexivity.
Defined.

(** ** Runs: what the log holds *)

Lemma points_from_result_range (r : string) : 0 <= points_from_result r <= 3.
Proof.
  unfold points_from_result, result_points. cbn [dict_get].
  repeat match goal with
  | |- context [String.eqb ?k r] => destruct (String.eqb k r); [lia|]
  end.
  lia.
Qed.

Lemma step_log_consistent (lower : string -> string) (act : action) (a : app) :
  Forall points_consistent (log (session a)) ->
  Forall points_consistent (log (session (step lower act a))).
Proof.
  intros H. destruct act; try exact H.
  - cbn [step]. unfold add_play.
    destruct (negb _); [exact H|]. destruct (existsb _ _); exact H.
  - constructor.
  - cbn [step add_log session log]. apply Forall_app. split; [exact H|].
    constructor; [reflexivity | constructor].
Qed.

Lemma consistent_points_bounds (df : DataFrame) (p : string) :
  Forall points_consistent df ->
  0 <= points_of df p <= 3 * attempts_of df p.
Proof.
  unfold points_of, attempts_of, events_of.
  induction 1 as [|e df He _ IH]; cbn [filter]; [simpl; lia|].
  destruct (String.eqb (play e) p); [|exact IH].
  cbn [map List.length]. unfold Zsum in *. cbn [fold_right].
  rewrite He. assert (H := points_from_result_range (result e)).
  rewrite Nat2Z.inj_succ. lia.
Qed.

(** X8. After any run, every row of the metrics has between 0 and 3 points
    per attempt: [0 <= Points <= 3 * Attempts], because every logged
    event carries the points of its result. *)
Theorem points_within_three_per_attempt (lower : string -> string)
    (today : date) (acts : list action) :
  let events := log (session (run lower acts (initial_app today))) in
  Forall (fun e => points e = points_from_result (result e)) events
  /\ Forall (fun r => 0 <= Points r <= 3 * Attempts r)
            (rows (compute_metrics events)).
Proof.
  intros events.
  assert (H : Forall points_consistent events).
  { apply (run_invariant lower (fun a => Forall points_consistent (log (session a)))).
    - intros act a. apply step_log_consistent.
    - constructor. }
  split; [exact H|].
  apply Forall_forall. intros r Hr. apply rows_In in Hr.
  destruct Hr as (k & _ & ->). cbn [metrics_of Points Attempts].
  now apply consistent_points_bounds.
Qed.

Lemma nth_quarter_option (choice : nat) :
  In (nth choice quarter_options "") quarter_options.
Proof.
  do 6 (destruct choice as [|choice]; [cbn; tauto|]).
  cbn. destruct choice; tauto.
Qed.

Lemma add_play_log_quarter (lower : string -> string) (a : app) :
  log (session (add_play lower a)) = log (session a)
  /\ quarter (session (add_play lower a)) = quarter (session a).
Proof.
  unfold add_play. destruct (negb _); [split; reflexivity|].
  destruct (existsb _ _); split; reflexivity.
Qed.

(** X9. After any run the stored quarter is one of the selectbox options,
    and so is the quarter of every logged event. *)
Theorem quarter_is_an_option (lower : string -> string)
    (today : date) (acts : list action) :
  let s := session (run lower acts (initial_app today)) in
  In (quarter s) quarter_options
  /\ Forall (fun e => In (ev_quarter e) quarter_options) (log s).
Proof.
  apply (run_invariant lower
           (fun a => In (quarter (session a)) quarter_options
                     /\ Forall (fun e => In (ev_quarter e) quarter_options)
                               (log (session a)))).
  - intros act a [Hq Hl]. destruct act; cbn [step]; try (split; assumption).
    + split; [apply nth_quarter_option | exact Hl].
    + destruct (add_play_log_quarter lower a) as [-> ->]. now split.
    + split; [exact Hq | constructor].
    + cbn [add_log session quarter log]. split; [exact Hq|].
      apply Forall_app. split; [exact Hl|]. constructor; [exact Hq | constructor].
  - split; [cbn; tauto | constructor].
Qed.

(** ** More on the table *)

Lemma rows_plays_permutation (df : DataFrame) :
  Permutation (group_keys df) (map Play (rows (compute_metrics df))).
Proof.
  destruct df as [|e df]; [constructor|].
  rewrite <- (Permutation_map Play (rows_permutation (e :: df) ltac:(discriminate))).
  rewrite map_map. cbn [metrics_of Play]. rewrite map_id. reflexivity.
Qed.

(** X10. The Play column lists every play name of the log exactly once:
    it has no repetition, a name is in it exactly when some event carries
    it, and the table has as many rows as the log has distinct names. *)
Theorem rows_one_per_play (df : DataFrame) :
  NoDup (map Play (rows (compute_metrics df)))
  /\ (forall p, In p (map Play (rows (compute_metrics df))) <-> In p (map play df))
  /\ List.length (rows (compute_metrics df))
     = List.length (nodup string_dec (map play df)).
Proof.
  assert (P := rows_plays_permutation df).
  split; [|split].
  - apply (Permutation_NoDup P), group_keys_NoDup.
  - intros p. rewrite <- group_keys_In. split; intro H.
    + apply (Permutation_in _ (Permutation_sym P) H).
    + apply (Permutation_in _ P H).
  - rewrite <- (length_map Play), <- (Permutation_length P).
    unfold group_keys. symmetry. apply Permutation_length, stable_sort_perm.
Qed.

Lemma weighted_indicator_sum (keys : list string) (p : string) (w : Z) :
  Zsum (map (fun k => if String.eqb p k then w else 0) keys)
  = w * Zsum (map (fun k => if String.eqb p k then 1 else 0) keys).
Proof.
  induction keys as [|k keys IH]; simpl; [lia|].
  rewrite IH. destruct (String.eqb p k); lia.
Qed.

Lemma group_points_sum (keys : list string) (df : DataFrame) :
  NoDup keys -> (forall e, In e df -> In (play e) keys) ->
  Zsum (map (points_of df) keys) = Zsum (map points df).
Proof.
  intros Hnd. induction df as [|e df IH]; intros Hcov.
  - clear. induction keys as [|k keys IH]; simpl; [reflexivity|].
    rewrite IH. reflexivity.
  - assert (Hstep : forall ks,
      Zsum (map (points_of (e :: df)) ks)
      = Zsum (map (fun k => if String.eqb (play e) k then points e else 0) ks)
        + Zsum (map (points_of df) ks)).
    { induction ks as [|k ks IHks]; simpl; [reflexivity|].
      rewrite IHks. unfold points_of, events_of. simpl.
      destruct (String.eqb (play e) k); simpl; lia. }
    rewrite Hstep, weighted_indicator_sum, indicator_sum, IH; auto.
    + simpl. lia.
    + intros e' He'. apply Hcov. now right.
    + apply Hcov. now left.
Qed.

(** X11. Grouping loses nothing: the Points column adds up to the points of
    all events and the Attempts column to the number of events, for every
    log, the empty one included. *)
Theorem totals_are_conserved (df : DataFrame) :
  Zsum (map Points (rows (compute_metrics df))) = Zsum (map points df)
  /\ Zsum (map Attempts (rows (compute_metrics df))) = Z.of_nat (List.length df).
Proof.
  destruct df as [|e df]; [split; reflexivity|].
  set (d := e :: df). assert (Hne : d <> []) by discriminate.
  split.
  - rewrite <- (Zsum_permutation _ _
                  (Permutation_map Points (rows_permutation d Hne))).
    rewrite map_map. cbn [metrics_of Points].
    apply group_points_sum; [apply group_keys_NoDup|].
    intros e' He'. apply group_keys_In. now apply in_map.
  - rewrite <- (Zsum_permutation _ _
                  (Permutation_map Attempts (rows_permutation d Hne))).
    rewrite map_map. cbn [metrics_of Attempts].
    apply total_attempts_length.
Qed.

(** ** The order of the events does not matter *)

Lemma string_leb_iff (a b : string) :
  String.leb a b = true <-> a = b \/ OrderedTypeEx.String_as_OT.lt a b.
Proof.
  unfold String.leb.
  assert (He := OrderedTypeEx.String_as_OT.cmp_eq a b).
  assert (Hl := OrderedTypeEx.String_as_OT.cmp_lt a b).
  unfold OrderedTypeEx.String_as_OT.cmp in *.
  destruct (String.compare a b); split; intro H; try reflexivity.
  - left. now apply He.
  - right. now apply Hl.
  - discriminate.
  - destruct H as [H|H]; [apply He in H | apply Hl in H]; discriminate.
Qed.

Lemma string_leb_trans (a b c : string) :
  String.leb a b = true -> String.leb b c = true -> String.leb a c = true.
Proof.
  rewrite !string_leb_iff. intros [->|H1] [->|H2]; auto.
  right. eapply OrderedTypeEx.String_as_OT.lt_trans; eassumption.
Qed.

Lemma string_leb_false (a b : string) :
  String.leb a b = false -> String.leb b a = true.
Proof.
  intros H. destruct (String.leb_total a b) as [H'|H']; congruence.
Qed.

Lemma sorted_permutation_unique (l1 l2 : list string) :
  StronglySorted (fun a b => String.leb a b = true) l1 ->
  StronglySorted (fun a b => String.leb a b = true) l2 ->
  Permutation l1 l2 -> l1 = l2.
Proof.
  intros H1. revert l2. induction H1 as [|x l1 Hs1 IH Hx]; intros l2 H2 P.
  - apply Permutation_nil in P. now subst.
  - destruct H2 as [|y l2 Hs2 Hy].
    + apply Permutation_sym, Permutation_nil in P. discriminate.
    + rewrite Forall_forall in Hx, Hy.
      assert (Exy : x = y).
      { assert (Hyin : In y (x :: l1))
          by (apply (Permutation_in _ (Permutation_sym P)); now left).
        assert (Hxin : In x (y :: l2))
          by (apply (Permutation_in _ P); now left).
        destruct Hyin as [E|Hyin]; [exact E|].
        destruct Hxin as [E|Hxin]; [now symmetry|].
        apply String.leb_antisym; [now apply Hx | now apply Hy]. }
      subst y. f_equal. apply IH; [exact Hs2|].
      now apply Permutation_cons_inv in P.
Qed.

Lemma group_keys_permutation (df1 df2 : DataFrame) :
  Permutation df1 df2 -> group_keys df1 = group_keys df2.
Proof.
  intros P. apply sorted_permutation_unique.
  - apply stable_sort_sorted; [exact string_leb_false | exact string_leb_trans].
  - apply stable_sort_sorted; [exact string_leb_false | exact string_leb_trans].
  - unfold group_keys.
    rewrite <- !stable_sort_perm.
    apply NoDup_Permutation; try apply NoDup_nodup.
    intros k. rewrite !nodup_In. split; intro H.
    + apply (Permutation_in _ (Permutation_map play P) H).
    + apply (Permutation_in _ (Permutation_sym (Permutation_map play P)) H).
Qed.

Lemma metrics_of_permutation (df1 df2 : DataFrame) (k : string) :
  Permutation df1 df2 -> metrics_of df1 k = metrics_of df2 k.
Proof.
  intros P.
  assert (Pe : Permutation (events_of df1 k) (events_of df2 k))
    by now apply filter_permutation.
  unfold metrics_of, attempts_of, points_of, made_of, shots_of.
  rewrite (Permutation_length Pe), (Permutation_length P).
  rewrite (Zsum_permutation _ _ (Permutation_map points Pe)).
  rewrite (Permutation_length
             (filter_permutation (fun e => isin (result e) made_results) _ _ Pe)).
  rewrite (Permutation_length
             (filter_permutation (fun e => isin (result e) shot_results) _ _ Pe)).
  reflexivity.
Qed.

(** X12. The table depends on which events were logged, not on the order
    in which they were logged: two logs that are rearrangements of one
    another give the same table, row for row. *)
Theorem compute_metrics_order_irrelevant (df1 df2 : DataFrame) :
  Permutation df1 df2 -> compute_metrics df1 = compute_metrics df2.
Proof.
  intros P. rewrite !compute_metrics_eq.
  assert (He : empty df1 = empty df2).
  { destruct df1, df2; try reflexivity.
    - apply Permutation_nil in P. discriminate.
    - apply Permutation_sym, Permutation_nil in P. discriminate. }
  rewrite He. destruct (empty df2); [reflexivity|].
  unfold unsorted_metrics. rewrite (group_keys_permutation _ _ P).
  do 2 f_equal. apply map_ext. intros k. now apply metrics_of_permutation.
Qed.

Lemma compute_metrics_order_irrelevant_witness :
  compute_metrics [tagged "Horns" "Made 2"; tagged "Flex" "Foul"; tagged "Horns" "Missed 3"]
  = compute_metrics [tagged "Horns" "Missed 3"; tagged "Horns" "Made 2"; tagged "Flex" "Foul"].
Proof.
  apply compute_metrics_order_irrelevant.
  apply Permutation_sym.
  apply (Permutation_cons_append
           [tagged "Horns" "Made 2"; tagged "Flex" "Foul"] (tagged "Horns" "Missed 3")).
Defined.

(** ** The float cells *)

Lemma filter_length_mono {A : Type} (f g : A -> bool) (l : list A) :
  (forall x, f x = true -> g x = true) ->
  (List.length (filter f l) <= List.length (filter g l) <= List.length l)%nat.
Proof.
  intros Hfg. induction l as [|x l IH]; simpl; [lia|].
  destruct (f x) eqn:Ef.
  - rewrite (Hfg x Ef). simpl. lia.
  - destruct (g x); simpl; lia.
Qed.

Lemma shots_of_le_attempts (df : DataFrame) (p : string) :
  0 <= made_of df p <= shots_of df p /\ shots_of df p <= attempts_of df p.
Proof.
  unfold made_of, shots_of, attempts_of.
  assert (H := filter_length_mono
                 (fun e => isin (result e) made_results)
                 (fun e => isin (result e) shot_results) (events_of df p)).
  cbv beta in H.
  assert (Hsub : forall e : event, isin (result e) made_results = true ->
                                   isin (result e) shot_results = true).
  { intros e. unfold isin, made_results, shot_results. cbn [existsb].
    destruct (String.eqb (result e) "Made 2"), (String.eqb (result e) "Made 3");
      cbn; auto; discriminate. }
  specialize (H Hsub). lia.
Qed.

(** X13. In a log of fewer than [2^53] events no cell of the table is NaN:
    PPP, Frequency and Success Rate are numbers in every row. *)
Theorem table_has_no_nan (df : DataFrame) :
  Z.of_nat (List.length df) < 2 ^ 53 ->
  Forall (fun r => PrimFloat.is_nan (PPP r) = false
                   /\ PrimFloat.is_nan (Frequency r) = false
                   /\ PrimFloat.is_nan (Success_Rate r) = false)
         (rows (compute_metrics df)).
Proof.
  intros Hlen. apply Forall_forall. intros r Hr.
  apply rows_In in Hr. destruct Hr as (k & Hk & ->).
  assert (H1 := attempts_of_pos df k Hk).
  assert (H2 := attempts_of_le_length df k).
  assert (H3 := shots_of_le_attempts df k).
  unfold metrics_of. cbn [PPP Frequency Success_Rate].
  split; [apply quotient_is_number; lia|]. split.
  - apply quotient_is_number.
    destruct (Z.eqb_spec (Z.of_nat (List.length df)) 0); lia.
  - destruct (Z.eqb_spec (shots_of df k) 0); [reflexivity|].
    apply quotient_is_number. lia.
Qed.

Lemma table_has_no_nan_witness :
  Forall (fun r => PrimFloat.is_nan (PPP r) = false
                   /\ PrimFloat.is_nan (Frequency r) = false
                   /\ PrimFloat.is_nan (Success_Rate r) = false)
         (rows (compute_metrics horns_flex)).
Proof. apply table_has_no_nan. simpl. lia. Defined.

Lemma float_of_int_normal (z : Z) :
  0 < z < 2 ^ 53 ->
  exists m e,
    Prim2SF (float_of_int z) = S754_finite false m e
    /\ Zpos (digits2_pos m) = 53 /\ -52 <= e <= 0.
Proof.
  intros Hz.
  destruct (float_of_int_value z Hz) as (m & e & H1 & H2 & H3 & _).
  now exists m, e.
Qed.

Lemma div_zero_by_finite (y : float) (m : positive) (e : Z) :
  Prim2SF y = S754_finite false m e ->
  PrimFloat.div PrimFloat.zero y = PrimFloat.zero.
Proof.
  intros Hy. apply Prim2SF_inj. rewrite div_spec, Hy. reflexivity.
Qed.

Lemma div_self (x : float) (m : positive) (e : Z) :
  Prim2SF x = S754_finite false m e ->
  Zpos (digits2_pos m) = 53 -> -52 <= e <= 0 ->
  PrimFloat.div x x = PrimFloat.one.
Proof.
  intros Hx Hd He. apply Prim2SF_inj. rewrite div_spec, Hx.
  unfold SF64div, SFdiv, SFdiv_core_binary. cbn [Zdigits2]. rewrite Hd.
  replace (53 + e - (53 + e)) with 0 by lia.
  replace (e - e) with 0 by lia.
  change (Z.min (fexp prec emax 0) 0) with (-53).
  change (0 - -53) with 53.
  assert (Hq : Z.div_eucl (Z.shiftl (Zpos m) 53) (Zpos m) = (2 ^ 53, 0)).
  { assert (Hs : Z.shiftl (Zpos m) 53 = 2 ^ 53 * Zpos m)
      by (rewrite Z.shiftl_mul_pow2 by lia; lia).
    rewrite Hs.
    assert (Hdiv : 2 ^ 53 * Zpos m / Zpos m = 2 ^ 53) by (apply Z.div_mul; lia).
    assert (Hmod : (2 ^ 53 * Zpos m) mod Zpos m = 0) by (apply Z.mod_mul; lia).
    unfold Z.div in Hdiv. unfold Z.modulo in Hmod.
    destruct (Z.div_eucl (2 ^ 53 * Zpos m) (Zpos m)) as [q r].
    now subst. }
  cbv iota.
  change (IntDef.Z.div_eucl (IntDef.Z.shiftl (Zpos m) 53) (Zpos m))
    with (Z.div_eucl (Z.shiftl (Zpos m) 53) (Zpos m)).
  rewrite Hq.
  assert (Hloc : new_location (Zpos m) 0 = loc_Exact).
  { unfold new_location, new_location_even, new_location_odd.
    destruct (Z.even (Zpos m)); reflexivity. }
  rewrite Hloc. reflexivity.
Qed.

Lemma quotient_zero (d : Z) :
  0 < d < 2 ^ 53 ->
  PrimFloat.div (float_of_int 0) (float_of_int d) = PrimFloat.zero.
Proof.
  intros Hd. destruct (float_of_int_normal d Hd) as (m & e & Hy & _).
  exact (div_zero_by_finite _ m e Hy).
Qed.

Lemma quotient_one (d : Z) :
  0 < d < 2 ^ 53 ->
  PrimFloat.div (float_of_int d) (float_of_int d) = PrimFloat.one.
Proof.
  intros Hd. destruct (float_of_int_normal d Hd) as (m & e & Hy & Hm & He).
  exact (div_self _ m e Hy Hm He).
Qed.

(** X14. In a log of fewer than [2^53] events the extreme cells are exact:
    a play without points has PPP 0.0, a play all of whose shots went in
    has Success Rate 1.0, and a play that accounts for every event of the
    log has Frequency 1.0. *)
Theorem extreme_cells_are_exact (df : DataFrame) (p : string) :
  Z.of_nat (List.length df) < 2 ^ 53 ->
  In p (map play df) ->
  exists r,
    filter (fun r' => String.eqb (Play r') p) (rows (compute_metrics df)) = [r]
    /\ (Points r = 0 -> PPP r = PrimFloat.zero)
    /\ (0 < shots_of df p -> made_of df p = shots_of df p ->
        Success_Rate r = PrimFloat.one)
    /\ (Attempts r = Z.of_nat (List.length df) -> Frequency r = PrimFloat.one).
Proof.
  intros Hlen Hp. exists (metrics_of df p). split; [now apply row_of_play|].
  assert (H1 := attempts_of_pos df p Hp).
  assert (H2 := attempts_of_le_length df p).
  assert (H3 := shots_of_le_attempts df p).
  unfold metrics_of. cbn [PPP Frequency Success_Rate Points Attempts].
  split; [|split].
  - intros ->. apply quotient_zero. lia.
  - intros Hs ->. destruct (Z.eqb_spec (shots_of df p) 0); [lia|].
    apply quotient_one. lia.
  - intros ->. destruct (Z.eqb_spec (Z.of_nat (List.length df)) 0); [lia|].
    apply quotient_one. lia.
Qed.

Lemma extreme_cells_are_exact_witness :
  exists r,
    filter (fun r' => String.eqb (Play r') "Horns")
      (rows (compute_metrics [tagged "Horns" "Missed 2"; tagged "Horns" "Foul";
                              tagged "Horns" "Missed 3"])) = [r]
    /\ PPP r = PrimFloat.zero /\ Frequency r = PrimFloat.one.
Proof.
  destruct (extreme_cells_are_exact
              [tagged "Horns" "Missed 2"; tagged "Horns" "Foul";
               tagged "Horns" "Missed 3"] "Horns")
    as (r & Hf & Hppp & _ & Hfreq).
  - simpl. lia.
  - simpl. auto.
  - exists r. split; [exact Hf|].
    assert (E : [r] = [metrics_of [tagged "Horns" "Missed 2"; tagged "Horns" "Foul";
                                   tagged "Horns" "Missed 3"] "Horns"])
      by (rewrite <- Hf; reflexivity).
    injection E as ->.
    split; [apply Hppp | apply Hfreq]; reflexivity.
Defined.

(** ** Tagging and the table *)

Lemma events_of_app (df : DataFrame) (e : event) (q : string) :
  events_of (df ++ [e]) q
  = events_of df q ++ (if String.eqb (play e) q then [e] else []).
Proof. unfold events_of. rewrite filter_app. reflexivity. Qed.

Lemma metrics_of_other_play (df : DataFrame) (e : event) (q : string) :
  play e <> q ->
  let r0 := metrics_of df q in
  let r1 := metrics_of (df ++ [e]) q in
  Attempts r1 = Attempts r0 /\ Points r1 = Points r0
  /\ PPP r1 = PPP r0 /\ Success_Rate r1 = Success_Rate r0.
Proof.
  intros Hne. cbv zeta.
  unfold metrics_of, attempts_of, points_of, made_of, shots_of.
  cbn [Attempts Points PPP Success_Rate].
  rewrite events_of_app.
  destruct (String.eqb_spec (play e) q) as [E|_]; [contradiction|].
  rewrite app_nil_r. repeat split.
Qed.

(** X15. Tagging a play leaves the other plays' rows alone except for
    their Frequency: for a play [q] of the log other than the tagged one,
    Attempts, Points, PPP and Success Rate are the same before and after
    [add_log]. *)
Theorem add_log_keeps_other_rows (now p r q : string) (a : app) :
  q <> p -> In q (map play (log (session a))) ->
  exists r0 r1,
    filter (fun r' => String.eqb (Play r') q)
           (rows (compute_metrics (log (session a)))) = [r0]
    /\ filter (fun r' => String.eqb (Play r') q)
              (rows (compute_metrics (log (session (add_log now p r a))))) = [r1]
    /\ Attempts r1 = Attempts r0 /\ Points r1 = Points r0
    /\ PPP r1 = PPP r0 /\ Success_Rate r1 = Success_Rate r0.
Proof.
  intros Hne Hq.
  exists (metrics_of (log (session a)) q).
  exists (metrics_of (log (session (add_log now p r a))) q).
  split; [now apply row_of_play|]. split.
  - apply row_of_play. cbn [add_log session log].
    rewrite map_app, in_app_iff. now left.
  - cbn [add_log session log]. apply metrics_of_other_play.
    cbn [play]. congruence.
Qed.

Lemma add_log_keeps_other_rows_witness :
  exists r0 r1,
    filter (fun r' => String.eqb (Play r') "Flex") (rows (compute_metrics horns_flex)) = [r0]
    /\ filter (fun r' => String.eqb (Play r') "Flex")
         (rows (compute_metrics
            (log (session (add_log "2024-01-01 10:05:00" "Horns" "Made 3"
                             (mkApp (mkSession ["Horns"; "Flex"] horns_flex None "Opp"
                                               (mkDate 2024 1 1) "1" "") []))))))
       = [r1]
    /\ Attempts r1 = Attempts r0 /\ Points r1 = Points r0.
Proof.
  destruct (add_log_keeps_other_rows "2024-01-01 10:05:00" "Horns" "Made 3" "Flex"
              (mkApp (mkSession ["Horns"; "Flex"] horns_flex None "Opp"
                                (mkDate 2024 1 1) "1" "") []))
    as (r0 & r1 & H0 & H1 & Ha & Hp & _).
  - discriminate.
  - simpl. auto.
  - exists r0, r1. repeat split; assumption.
Defined.

(** X16. Tagging play [p] with result [r] raises that play's Attempts by
    one and its Points by the points of [r]; a play tagged for the first
    time starts at one attempt. *)
Theorem add_log_updates_its_row (now p r : string) (a : app) :
  exists row,
    filter (fun r' => String.eqb (Play r') p)
           (rows (compute_metrics (log (session (add_log now p r a))))) = [row]
    /\ Attempts row = attempts_of (log (session a)) p + 1
    /\ Points row = points_of (log (session a)) p + points_from_result r
    /\ (~ In p (map play (log (session a))) ->
        Attempts row = 1 /\ Points row = points_from_result r).
Proof.
  exists (metrics_of (log (session (add_log now p r a))) p).
  split.
  - apply row_of_play. cbn [add_log session log].
    rewrite map_app, in_app_iff. right. simpl. auto.
  - cbn [add_log session log].
    assert (Ha : attempts_of (log (session a) ++
                   [mkEvent now (opponent (session a))
                            (date_str (game_date (session a)))
                            (quarter (session a)) p r (points_from_result r)]) p
                 = attempts_of (log (session a)) p + 1).
    { unfold attempts_of. rewrite events_of_app. cbn [play].
      rewrite String.eqb_refl, length_app. simpl List.length. lia. }
    assert (Hp : points_of (log (session a) ++
                   [mkEvent now (opponent (session a))
                            (date_str (game_date (session a)))
                            (quarter (session a)) p r (points_from_result r)]) p
                 = points_of (log (session a)) p + points_from_result r).
    { unfold points_of. rewrite events_of_app. cbn [play].
      rewrite String.eqb_refl, map_app. cbn [map points].
      unfold Zsum. rewrite fold_right_app. cbn [fold_right].
      generalize (map points (events_of (log (session a)) p)).
      induction l as [|x l IH]; simpl; [lia|]. rewrite IH. lia. }
    unfold metrics_of. cbn [Attempts Points].
    split; [exact Ha|]. split; [exact Hp|].
    intros Hnew. apply events_of_nil_iff in Hnew.
    rewrite Ha, Hp. unfold attempts_of, points_of. rewrite Hnew. simpl. lia.
Qed.

(** ** The log between two resets *)

Lemma step_log (lower : string -> string) (act : action) (a : app) :
  is_reset act = false ->
  exists new,
    log (session (step lower act a)) = log (session a) ++ new
    /\ map tag_of_event new = tags_of [act].
Proof.
  intros Hr. destruct act; try discriminate Hr;
    try (exists []; split; [cbn; now rewrite app_nil_r | reflexivity]).
  - exists []. cbn [step]. destruct (add_play_log_quarter lower a) as [-> _].
    split; [now rewrite app_nil_r | reflexivity].
  - eexists. split; reflexivity.
Qed.

Lemma run_log (lower : string -> string) (acts : list action) (a : app) :
  forallb (fun act => negb (is_reset act)) acts = true ->
  exists new,
    log (session (run lower acts a)) = log (session a) ++ new
    /\ map tag_of_event new = tags_of acts.
Proof.
  revert a. unfold run. induction acts as [|act acts IH]; intros a H; simpl.
  - exists []. split; [now rewrite app_nil_r | reflexivity].
  - simpl in H. apply andb_true_iff in H. destruct H as [Hact Hacts].
    apply negb_true_iff in Hact.
    destruct (step_log lower act a Hact) as (n1 & E1 & T1).
    destruct (IH (step lower act a) Hacts) as (n2 & E2 & T2).
    exists (n1 ++ n2). split.
    + now rewrite E2, E1, app_assoc.
    + rewrite map_app, T1, T2. unfold tags_of. simpl. now rewrite app_nil_r.
Qed.

Lemma run_app (lower : string -> string) (acts1 acts2 : list action) (a : app) :
  run lower (acts1 ++ acts2) a = run lower acts2 (run lower acts1 a).
Proof. unfold run. apply fold_left_app. Qed.

(** X17. Between two resets the log only grows at its end: a run without
    reset leaves the events already logged as they were and appends one
    event per tag, in the order of the tags; after a reset the log holds
    exactly the tags made since. *)
Theorem log_is_append_only (lower : string -> string)
    (before since : list action) (a : app) :
  forallb (fun act => negb (is_reset act)) since = true ->
  (exists new,
     log (session (run lower since a)) = log (session a) ++ new
     /\ map tag_of_event new = tags_of since)
  /\ map tag_of_event (log (session (run lower (before ++ ClickReset :: since) a)))
     = tags_of since.
Proof.
  intros H. split; [now apply run_log|].
  change (before ++ ClickReset :: since) with (before ++ [ClickReset] ++ since).
  rewrite !run_app.
  destruct (run_log lower since (run lower [ClickReset] (run lower before a)) H) as (new & E & T).
  rewrite E.
  change (log (session (run lower [ClickReset] (run lower before a)))) with (@nil event).
  exact T.
Qed.

Lemma log_is_append_only_witness :
  map tag_of_event
    (log (session (run PyStr.lower_ascii ([Tag "09:00" "Flex" "Foul"] ++ ClickReset ::
                        [TypeNewPlay "Horns"; ClickAddPlay; Tag "10:00" "Horns" "Made 2";
                         SelectQuarter 2; Tag "10:05" "Horns" "Missed 3"])
                       (initial_app (mkDate 2024 1 1)))))
  = [("10:00", "Horns", "Made 2"); ("10:05", "Horns", "Missed 3")].
Proof.
  destruct (log_is_append_only PyStr.lower_ascii [Tag "09:00" "Flex" "Foul"]
              [TypeNewPlay "Horns"; ClickAddPlay; Tag "10:00" "Horns" "Made 2";
               SelectQuarter 2; Tag "10:05" "Horns" "Missed 3"]
              (initial_app (mkDate 2024 1 1)) eq_refl) as [_ H].
  exact H.
Defined.
